(** * flood-web: the GloFAS raster-to-GeoJSON pipeline of [glofas.py]

    A shallow embedding of [choose_variable], [compute_thresholds],
    [classify_point] and [grib_to_geojson], and the properties of the
    specification that hold (or fail) on them.

    Numbers.  A Python/NumPy float is modelled as an extended rational
    ([pyfloat]): a finite value carries an exact rational, and the three
    special values [inf], [-inf] and [nan] are kept apart, with the IEEE
    rules for comparisons (every comparison with [nan] is false).  Rounding
    of arithmetic results to 53 bits is not modelled: sums, products and
    interpolations are exact.

    Libraries.  The pipeline calls NumPy ([isfinite], boolean masks,
    [quantile]), xarray ([data_vars], [dims], [sizes], [coords], [sel],
    [isel], [values]) and shapely ([contains]).  Each is embedded by the
    behaviour its documentation gives for the calls that [glofas.py]
    makes: a cube is its variables in declaration order and its
    one-dimensional coordinate arrays, an array is its shape and its items,
    and the boundary is a polygon with exact rational vertices.

    Effects.  What the functions print is kept as a list of messages next
    to the returned value or the raised exception ([M]); the two loops of
    [grib_to_geojson] print nothing and live in [result].  Opening the
    GRIB file and the boundary loaded at start-up are parameters of the
    pipeline. *)

From Stdlib Require Import String Ascii DecimalString DecimalNat.
From Stdlib Require Import QArith Qround Qabs Qminmax Lqa Lia ZArith Bool Arith Sorted
  Permutation List.
Import ListNotations.
Open Scope string_scope.
Open Scope list_scope.
Open Scope Q_scope.

(** ** Floats *)

Inductive pyfloat : Type :=
| Finite (q : Q)
| PosInf
| NegInf
| NaN.

Definition fzero : pyfloat := Finite 0.

(** [np.isfinite] *)
Definition isfinite (x : pyfloat) : bool :=
  match x with
  | Finite _ => true
  | _ => false
  end.

(** [x <= y] on floats. *)
Definition fle (x y : pyfloat) : bool :=
  match x, y with
  | NaN, _ | _, NaN => false
  | NegInf, _ => true
  | _, PosInf => true
  | Finite a, Finite b => Qle_bool a b
  | _, _ => false
  end.

(** [x < y] on floats. *)
Definition flt (x y : pyfloat) : bool :=
  match x, y with
  | NaN, _ | _, NaN => false
  | NegInf, NegInf => false
  | NegInf, _ => true
  | PosInf, _ => false
  | Finite _, PosInf => true
  | Finite _, NegInf => false
  | Finite a, Finite b => negb (Qle_bool b a)
  end.

(** [x >= y] and [x > y]. *)
Definition fge (x y : pyfloat) : bool := fle y x.
Definition fgt (x y : pyfloat) : bool := flt y x.

(** The order of the floats as a relation, independent of the boolean
    tests above: [nan] is related to nothing, [-inf] is below and [inf] is
    above every number. *)
Inductive Fle : pyfloat -> pyfloat -> Prop :=
| Fle_fin a b : a <= b -> Fle (Finite a) (Finite b)
| Fle_neg_fin b : Fle NegInf (Finite b)
| Fle_neg_neg : Fle NegInf NegInf
| Fle_neg_pos : Fle NegInf PosInf
| Fle_fin_pos a : Fle (Finite a) PosInf
| Fle_pos_pos : Fle PosInf PosInf.

Inductive Flt : pyfloat -> pyfloat -> Prop :=
| Flt_fin a b : a < b -> Flt (Finite a) (Finite b)
| Flt_neg_fin b : Flt NegInf (Finite b)
| Flt_neg_pos : Flt NegInf PosInf
| Flt_fin_pos a : Flt (Finite a) PosInf.

(** ** Risk classification: [classify_point] *)

Definition classify_point (discharge q2 q5 q20 : pyfloat)
  : option string * option string :=
  if negb (isfinite discharge) || fle discharge fzero then
    (None, None)
  else if fge discharge q20 then
    (Some "20", Some "purple")
  else if fge discharge q5 then
    (Some "5", Some "red")
  else if fge discharge q2 then
    (Some "2", Some "orange")
  else
    (Some "1", Some "gray").

(** The decision table of the specification, written as a relation between
    a discharge value, a threshold triple and a classification. *)
Inductive risk_tier (v q2 q5 q20 : pyfloat)
  : option string * option string -> Prop :=
| tier_none :
    isfinite v = false \/ Fle v fzero ->
    risk_tier v q2 q5 q20 (None, None)
| tier_20 :
    isfinite v = true -> Flt fzero v ->
    Fle q20 v ->
    risk_tier v q2 q5 q20 (Some "20", Some "purple")
| tier_5 :
    isfinite v = true -> Flt fzero v ->
    ~ Fle q20 v -> Fle q5 v ->
    risk_tier v q2 q5 q20 (Some "5", Some "red")
| tier_2 :
    isfinite v = true -> Flt fzero v ->
    ~ Fle q20 v -> ~ Fle q5 v -> Fle q2 v ->
    risk_tier v q2 q5 q20 (Some "2", Some "orange")
| tier_1 :
    isfinite v = true -> Flt fzero v ->
    ~ Fle q20 v -> ~ Fle q5 v -> ~ Fle q2 v ->
    risk_tier v q2 q5 q20 (Some "1", Some "gray").

(** ** Float arithmetic

    Results are kept in lowest terms, so that a number has one
    representation. *)

Definition fneg (x : pyfloat) : pyfloat :=
  match x with
  | Finite a => Finite (Qred (- a))
  | PosInf => NegInf
  | NegInf => PosInf
  | NaN => NaN
  end.

Definition fadd (x y : pyfloat) : pyfloat :=
  match x, y with
  | NaN, _ | _, NaN => NaN
  | Finite a, Finite b => Finite (Qred (a + b))
  | PosInf, NegInf | NegInf, PosInf => NaN
  | PosInf, _ | _, PosInf => PosInf
  | NegInf, _ | _, NegInf => NegInf
  end.

Definition fsub (x y : pyfloat) : pyfloat := fadd x (fneg y).

(** The sign of an infinite product: [inf * 0] is [nan]. *)
Definition inf_times (positive : bool) (a : Q) : pyfloat :=
  match a ?= 0 with
  | Eq => NaN
  | Gt => if positive then PosInf else NegInf
  | Lt => if positive then NegInf else PosInf
  end.

Definition fmul (x y : pyfloat) : pyfloat :=
  match x, y with
  | NaN, _ | _, NaN => NaN
  | Finite a, Finite b => Finite (Qred (a * b))
  | PosInf, Finite a | Finite a, PosInf => inf_times true a
  | NegInf, Finite a | Finite a, NegInf => inf_times false a
  | PosInf, PosInf | NegInf, NegInf => PosInf
  | PosInf, NegInf | NegInf, PosInf => NegInf
  end.

(** ** NumPy arrays

    An array is its shape and the item at each index tuple; the items
    outside the shape are never read. *)

Record ndarray : Type := mk_ndarray {
  shape : list nat;
  item : list nat -> pyfloat
}.

Definition ndim (a : ndarray) : nat := length (shape a).

(** All index tuples of a shape, in row-major order. *)
Fixpoint ndindex (sh : list nat) : list (list nat) :=
  match sh with
  | [] => [[]]
  | n :: sh' => flat_map (fun i => map (cons i) (ndindex sh')) (seq 0 n)
  end.

(** The items of an array in row-major order, as boolean-mask indexing
    visits them. *)
Definition ravel (a : ndarray) : list pyfloat :=
  map (item a) (ndindex (shape a)).

(** A two-dimensional array given by its rows (all of the length of the
    first one). *)
Definition array2d (rows : list (list pyfloat)) : ndarray :=
  {| shape := [length rows; length (hd [] rows)];
     item := fun idx =>
       match idx with
       | [i; j] => nth j (nth i rows []) NaN
       | _ => NaN
       end |}.

(** ** [np.quantile] with linear interpolation *)

Fixpoint insert_sorted (x : pyfloat) (l : list pyfloat) : list pyfloat :=
  match l with
  | [] => [x]
  | y :: l' => if fle x y then x :: l else y :: insert_sorted x l'
  end.

Definition np_sort (l : list pyfloat) : list pyfloat :=
  fold_right insert_sorted [] l.

(** NumPy's [_lerp]: [a + (b - a) * t], computed from [b] downwards when
    [t >= 0.5]. *)
Definition lerp (a b : pyfloat) (t : Q) : pyfloat :=
  let diff_b_a := fsub b a in
  if Qle_bool (1 # 2) t
  then fsub b (fmul diff_b_a (Finite (1 - t)))
  else fadd a (fmul diff_b_a (Finite t)).

(** The quantile [q] of a non-empty one-dimensional array: the virtual
    index [(n - 1) * q], the two neighbouring order statistics (the upper
    one clipped to the last index) and their interpolation. *)
Definition np_quantile (arr : list pyfloat) (q : Q) : pyfloat :=
  let sorted := np_sort arr in
  let n := length sorted in
  let virtual_index := inject_Z (Z.of_nat n - 1) * q in
  let previous_index := Qfloor virtual_index in
  let gamma := virtual_index - inject_Z previous_index in
  let prev := Z.to_nat previous_index in
  let next := Nat.min (prev + 1) (n - 1) in
  lerp (nth prev sorted NaN) (nth next sorted NaN) gamma.

(** ** Thresholds: [compute_thresholds] *)

(** [values[np.isfinite(values) & (values > 0)]] *)
Definition positive_values (values : ndarray) : list pyfloat :=
  filter (fun v => isfinite v && fgt v fzero) (ravel values).

Definition compute_thresholds (values : ndarray)
  : pyfloat * pyfloat * pyfloat :=
  let positive := positive_values values in
  if Nat.eqb (length positive) 0 then
    (Finite 1, Finite 5, Finite 10)
  else
    let q2 := np_quantile positive 0.55 in
    let q5 := np_quantile positive 0.85 in
    let q20 := np_quantile positive 0.98 in
    (q2, q5, q20).

(** A finite, strictly positive float: what the mask of
    [compute_thresholds] keeps. *)
Definition posfin (v : pyfloat) : Prop :=
  match v with
  | Finite q => 0 < q
  | _ => False
  end.

(** ** Exceptions and printed output

    A computation prints messages and then returns a value or raises. *)

Inductive exception : Type :=
| IndexError
| KeyError (key : string)
| TypeError_not_scalar (name : string)
| RuntimeError_shape (got : list nat).

Inductive result (A : Type) : Type :=
| Ok (a : A)
| Raise (e : exception).
Arguments Ok {A} a.
Arguments Raise {A} e.

Inductive message : Type :=
| ProcessOpening (grib_path : string)
| InfoUsingVariable (name : string)
| WarnFallbackVariable (name : string)
| InfoThresholds (q2 q5 q20 : pyfloat)
| DoneGeoJSON (n : nat).

Definition M (A : Type) : Type := list message * result A.

Definition ret {A} (a : A) : M A := ([], Ok a).

Definition bind {A B} (m : M A) (f : A -> M B) : M B :=
  match m with
  | (out, Ok a) => let (out', r) := f a in (out ++ out', r)
  | (out, Raise e) => (out, Raise e)
  end.

Definition print (msg : message) : M unit := ([msg], Ok tt).
Definition lift {A} (r : result A) : M A := ([], r).

Definition rbind {A B} (r : result A) (f : A -> result B) : result B :=
  match r with
  | Ok a => f a
  | Raise e => Raise e
  end.

Declare Scope py_scope.
Delimit Scope py_scope with py.
Notation "x <- m ;; k" := (bind m (fun x => k))
  (at level 61, m at next level, right associativity) : py_scope.
Notation "m ;; k" := (bind m (fun _ => k))
  (at level 61, right associativity) : py_scope.
Notation "x <~ r ;; k" := (rbind r (fun x => k))
  (at level 61, r at next level, right associativity) : py_scope.
Open Scope py_scope.

(** [range(n)] *)
Definition range (n : Z) : list nat := seq 0 (Z.to_nat n).

(** A [for] loop over [xs] that updates [s] and stops at the first
    exception. *)
Fixpoint for_each {A S} (xs : list A) (body : A -> S -> result S) (s : S)
  : result S :=
  match xs with
  | [] => Ok s
  | x :: xs' => s' <~ body x s ;; for_each xs' body s'
  end.

(** [seq[i]] for a non-negative index. *)
Definition getitem (l : list pyfloat) (i : nat) : result pyfloat :=
  match nth_error l i with
  | Some x => Ok x
  | None => Raise IndexError
  end.

(** [values[i, j]] on a two-dimensional array. *)
Definition getitem2 (a : ndarray) (i j : nat) : result pyfloat :=
  match shape a with
  | [r; c] =>
      if (i <? r)%nat && (j <? c)%nat then Ok (item a [i; j])
      else Raise IndexError
  | _ => Raise IndexError
  end.

(** ** The data cube (xarray)

    A variable has named dimensions with their sizes, one-dimensional
    coordinate arrays and its items.  A label of a coordinate is a number
    or, as for the lead times that cfgrib decodes, a time span; labels may
    repeat. *)

Inductive label : Type :=
| Number (x : pyfloat)
| Timedelta (nanoseconds : Z).

Record DataArray : Type := mk_DataArray {
  sizes : list (string * nat);
  coords : list (string * list label);
  data : list nat -> pyfloat
}.

Definition dims (da : DataArray) : list string := map fst (sizes da).

Definition values (da : DataArray) : ndarray :=
  {| shape := map snd (sizes da); item := data da |}.

(** The cube: its variables in declaration order and its coordinate
    arrays, each along the dimension of its name. *)
Record Dataset : Type := mk_Dataset {
  data_vars : list (string * DataArray);
  ds_coords : list (string * list pyfloat)
}.

Fixpoint lookup {A} (name : string) (l : list (string * A)) : option A :=
  match l with
  | [] => None
  | (k, v) :: l' => if String.eqb name k then Some v else lookup name l'
  end.

Fixpoint remove_key {A} (name : string) (l : list (string * A))
  : list (string * A) :=
  match l with
  | [] => []
  | (k, v) :: l' =>
      if String.eqb name k then l' else (k, v) :: remove_key name l'
  end.

Fixpoint index_of (name : string) (names : list string) : option nat :=
  match names with
  | [] => None
  | k :: names' =>
      if String.eqb name k then Some 0%nat
      else option_map S (index_of name names')
  end.

(** [name in names] *)
Definition mem (name : string) (names : list string) : bool :=
  existsb (String.eqb name) names.

(** [ds[name]] for a data variable. *)
Definition ds_getitem (ds : Dataset) (name : string) : result DataArray :=
  match lookup name (data_vars ds) with
  | Some var => Ok var
  | None => Raise (KeyError name)
  end.

(** The size of a dimension of the cube: that of the first variable which
    has it. *)
Fixpoint ds_dim_size (name : string) (vars : list (string * DataArray))
  : option nat :=
  match vars with
  | [] => None
  | (_, var) :: vars' =>
      match lookup name (sizes var) with
      | Some n => Some n
      | None => ds_dim_size name vars'
      end
  end.

(** The default index of a dimension without a coordinate: 0, 1, ... *)
Definition default_index (n : nat) : list pyfloat :=
  map (fun i => Finite (inject_Z (Z.of_nat i))) (seq 0 n).

(** [ds[name].values], read as a sequence of numbers: a coordinate array,
    else a data variable of that name, else the default index of a
    dimension of that name, else a key error.  A data variable that is not
    one-dimensional has no numbers as entries: the program then stops at
    the first [float(lat[i])] that it evaluates, the model when it reads
    the array. *)
Definition ds_coord_values (ds : Dataset) (name : string)
  : result (list pyfloat) :=
  match lookup name (ds_coords ds) with
  | Some c => Ok c
  | None =>
      match lookup name (data_vars ds) with
      | Some var =>
          match sizes var with
          | [(_, n)] => Ok (map (fun i => data var [i]) (seq 0 n))
          | _ => Raise (TypeError_not_scalar name)
          end
      | None =>
          match ds_dim_size name (data_vars ds) with
          | Some n => Ok (default_index n)
          | None => Raise (KeyError name)
          end
      end
  end.

(** [da.isel({dim: i})]: the slice at position [i] along [dim], which
    leaves the dimensions. *)
Definition isel (da : DataArray) (dim : string) (i : nat)
  : result DataArray :=
  match index_of dim (dims da) with
  | None => Raise (KeyError dim)
  | Some axis =>
      if (i <? nth axis (map snd (sizes da)) 0)%nat then
        Ok {| sizes := firstn axis (sizes da) ++ skipn (S axis) (sizes da);
              coords := remove_key dim (coords da);
              data := fun idx =>
                data da (firstn axis idx ++ i :: skipn axis idx) |}
      else Raise IndexError
  end.

(** A label is the number [x]; a time span is no number. *)
Definition label_is (x : Q) (l : label) : bool :=
  match l with
  | Number (Finite q) => Qeq_bool q x
  | _ => false
  end.

(** The positions, from [k] on, of the labels equal to [x]. *)
Fixpoint positions_from (k : nat) (x : Q) (labels : list label) : list nat :=
  match labels with
  | [] => []
  | l :: labels' =>
      if label_is x l then k :: positions_from (S k) x labels'
      else positions_from (S k) x labels'
  end.

Definition label_positions (x : Q) (labels : list label) : list nat :=
  positions_from 0 x labels.

(** The labels at the given positions. *)
Definition take_labels (positions : list nat) (labels : list label)
  : list label :=
  flat_map (fun i => match nth_error labels i with
                     | Some l => [l]
                     | None => []
                     end) positions.

(** [da.isel({dim: positions})] for several positions: the dimension
    stays, with one entry per position. *)
Definition isel_many (da : DataArray) (dim : string) (positions : list nat)
  : result DataArray :=
  match index_of dim (dims da) with
  | None => Raise (KeyError dim)
  | Some axis =>
      if forallb (fun i => (i <? nth axis (map snd (sizes da)) 0)%nat)
           positions
      then
        Ok {| sizes := firstn axis (sizes da)
                         ++ (dim, length positions)
                         :: skipn (S axis) (sizes da);
              coords :=
                map (fun c => if String.eqb (fst c) dim
                              then (fst c, take_labels positions (snd c))
                              else c)
                    (coords da);
              data := fun idx =>
                data da (firstn axis idx
                           ++ nth (nth axis idx 0%nat) positions 0%nat
                           :: skipn (S axis) idx) |}
      else Raise IndexError
  end.

(** [da.sel(step=24)]: a key error when no label is 24, the slice at its
    position when one label is, and the slices at all their positions,
    along a dimension that stays, when several are. *)
Definition sel_step (da : DataArray) (x : Q) : result DataArray :=
  match lookup "step" (coords da) with
  | None => Raise (KeyError "step")
  | Some labels =>
      match label_positions x labels with
      | [] => Raise (KeyError "step")
      | [i] => isel da "step" i
      | positions => isel_many da "step" positions
      end
  end.

(** ** Variable selection: [choose_variable] *)

Definition candidates : list string :=
  ["river_discharge_in_the_last_24_hours"; "dis24"; "dis"].

(** The loop over the candidates, which returns at the first name that
    the cube declares. *)
Fixpoint first_present (names : list string) (ds : Dataset)
  : option string :=
  match names with
  | [] => None
  | name :: names' =>
      if mem name (map fst (data_vars ds)) then Some name
      else first_present names' ds
  end.

Definition choose_variable (ds : Dataset) : M DataArray :=
  match first_present candidates ds with
  | Some name =>
      print (InfoUsingVariable name) ;;
      lift (ds_getitem ds name)
  | None =>
      fallback <- lift (match map fst (data_vars ds) with
                        | [] => Raise IndexError
                        | name :: _ => Ok name
                        end) ;;
      print (WarnFallbackVariable fallback) ;;
      lift (ds_getitem ds fallback)
  end.

(** ** Dimension reduction *)

(** The 24 hour lead time, or the first step when there is none. *)
Definition select_lead_time (var : DataArray) : result DataArray :=
  if mem "step" (dims var) then
    match lookup "step" (coords var) with
    | Some _ =>
        match sel_step var 24 with
        | Ok data_24h => Ok data_24h
        | Raise _ => isel var "step" 0
        end
    | None => isel var "step" 0
    end
  else Ok var.

Definition is_spatial (dim : string) : bool :=
  mem dim ["latitude"; "lat"; "longitude"; "lon"].

(** The loop that drops the other dimensions of size one. *)
Definition drop_singletons (data_max : DataArray) : result DataArray :=
  for_each (dims data_max)
    (fun dim data_max =>
       if negb (is_spatial dim)
          && match lookup dim (sizes data_max) with
             | Some n => (n =? 1)%nat
             | None => false
             end
       then isel data_max dim 0
       else Ok data_max)
    data_max.

Definition lat_name_of (data_max : DataArray) : string :=
  if mem "latitude" (dims data_max) then "latitude" else "lat".

Definition lon_name_of (data_max : DataArray) : string :=
  if mem "longitude" (dims data_max) then "longitude" else "lon".

(** ** The region boundary (shapely)

    A polygon is its exterior ring and its holes, each a closed list of
    (longitude, latitude) vertices.  [contains] follows the documented
    meaning of shapely's predicate: a point is contained when it lies in
    the interior of the polygon, which leaves out the points of the rings
    themselves.  A point with a non-finite coordinate is contained in
    nothing. *)

Definition point : Type := (Q * Q)%type.

Record Polygon : Type := mk_Polygon {
  exterior : list point;
  interiors : list (list point)
}.

(** The edges of a closed ring. *)
Definition segments (ring : list point) : list (point * point) :=
  combine ring (tl ring).

(** [p] lies on the closed segment [s]. *)
Definition on_segment (p : point) (s : point * point) : bool :=
  let '(x, y) := p in
  let '((x1, y1), (x2, y2)) := s in
  Qeq_bool ((x2 - x1) * (y - y1)) ((y2 - y1) * (x - x1))
  && Qle_bool (Qmin x1 x2) x && Qle_bool x (Qmax x1 x2)
  && Qle_bool (Qmin y1 y2) y && Qle_bool y (Qmax y1 y2).

(** The ray from [p] towards increasing longitude meets the edge [s]. *)
Definition crosses_ray (p : point) (s : point * point) : bool :=
  let '(x, y) := p in
  let '((x1, y1), (x2, y2)) := s in
  xorb (negb (Qle_bool y1 y)) (negb (Qle_bool y2 y))
  && negb (Qle_bool (x1 + (y - y1) * (x2 - x1) / (y2 - y1)) x).

Definition on_ring (p : point) (ring : list point) : bool :=
  existsb (on_segment p) (segments ring).

(** Odd number of crossings: [p], not on the ring, is enclosed by it. *)
Definition inside_ring (p : point) (ring : list point) : bool :=
  fold_right xorb false (map (crosses_ray p) (segments ring)).

Definition on_boundary (p : point) (poly : Polygon) : bool :=
  on_ring p (exterior poly) || existsb (on_ring p) (interiors poly).

Definition in_interior (p : point) (poly : Polygon) : bool :=
  negb (on_ring p (exterior poly))
  && inside_ring p (exterior poly)
  && forallb (fun hole => negb (on_ring p hole) && negb (inside_ring p hole))
       (interiors poly).

(** [poly.contains(Point(x, y))] *)
Definition contains (poly : Polygon) (x y : pyfloat) : bool :=
  match x, y with
  | Finite a, Finite b => in_interior (a, b) poly
  | _, _ => false
  end.

(** Modelled from the spec: the boundary-inclusive containment test of the
    specification, in which the points of the rings count as inside; the
    source calls [contains] instead. *)
Definition contains_inclusive (poly : Polygon) (x y : pyfloat) : bool :=
  match x, y with
  | Finite a, Finite b => in_interior (a, b) poly || on_boundary (a, b) poly
  | _, _ => false
  end.

(** ** GeoJSON output *)

Record Geometry : Type := mk_Geometry {
  geometry_type : string;
  coordinates : list (list (list pyfloat))
}.

Record Properties : Type := mk_Properties {
  discharge : pyfloat;
  risk_level : option string;
  risk_color : option string
}.

Record Feature : Type := mk_Feature {
  feature_type : string;
  geometry : Geometry;
  properties : Properties
}.

Record FeatureCollection : Type := mk_FeatureCollection {
  collection_type : string;
  features : list Feature
}.

(** Rounding to the nearest integer, halves to the even neighbour. *)
Definition round_half_even (x : Q) : Z :=
  let f := Qfloor x in
  match ((x - inject_Z f) ?= (1 # 2))%Q with
  | Lt => f
  | Gt => (f + 1)%Z
  | Eq => if Z.even f then f else (f + 1)%Z
  end.

(** [round(x, 2)] *)
Definition round2 (x : pyfloat) : pyfloat :=
  match x with
  | Finite q => Finite (Qred (inject_Z (round_half_even (q * 100)) / 100))
  | _ => x
  end.

(** ** The pipeline: [grib_to_geojson] *)

Section Pipeline.

(** The boundary loaded at start-up, if the file was there. *)
Variable GIA_LAI_POLYGON : option Polygon.

(** [xr.open_dataset(grib_path, engine="cfgrib")] *)
Variable open_dataset : string -> result Dataset.

(** The body of the inner loop for the cell [(i, j)]. *)
Definition cell_body (lat lon : list pyfloat) (values : ndarray)
    (q2 q5 q20 : pyfloat) (i j : nat) (features : list Feature)
  : result (list Feature) :=
  discharge <~ getitem2 values i j ;;
  let '(risk_level, risk_color) := classify_point discharge q2 q5 q20 in
  match risk_level with
  | None => Ok features
  | Some _ =>
      lon_left <~ getitem lon j ;;
      lon_right <~ getitem lon (j + 1) ;;
      lat_top <~ getitem lat i ;;
      lat_bottom <~ getitem lat (i + 1) ;;
      let clipped :=
        match GIA_LAI_POLYGON with
        | Some boundary =>
            let centroid_lon := fmul (Finite 0.5) (fadd lon_left lon_right) in
            let centroid_lat := fmul (Finite 0.5) (fadd lat_top lat_bottom) in
            negb (contains boundary centroid_lon centroid_lat)
        | None => false
        end in
      if clipped then Ok features
      else
        let polygon :=
          [ [lon_left; lat_top];
            [lon_right; lat_top];
            [lon_right; lat_bottom];
            [lon_left; lat_bottom];
            [lon_left; lat_top] ] in
        let feature :=
          {| feature_type := "Feature";
             geometry :=
               {| geometry_type := "Polygon";
                  coordinates := [polygon] |};
             properties :=
               {| discharge := round2 discharge;
                  risk_level := risk_level;
                  risk_color := risk_color |} |} in
        Ok (features ++ [feature])
  end.

(** The two nested loops over the cells. *)
Definition build_features (lat lon : list pyfloat) (values : ndarray)
    (q2 q5 q20 : pyfloat) : result (list Feature) :=
  let n_lat := Z.of_nat (length lat) in
  let n_lon := Z.of_nat (length lon) in
  for_each (range (n_lat - 1))
    (fun i features =>
       for_each (range (n_lon - 1))
         (fun j features =>
            cell_body lat lon values q2 q5 q20 i j features)
         features)
    [].

(** The cube reduced to a field: the variable, its 24 hour slice without
    the dimensions of size one, and the two coordinate arrays. *)
Definition reduced_field (ds : Dataset)
  : M (list pyfloat * list pyfloat * ndarray) :=
  var <- choose_variable ds ;;
  data_24h <- lift (select_lead_time var) ;;
  data_max <- lift (drop_singletons data_24h) ;;
  let lat_name := lat_name_of data_max in
  let lon_name := lon_name_of data_max in
  lat <- lift (ds_coord_values ds lat_name) ;;
  lon <- lift (ds_coord_values ds lon_name) ;;
  ret (lat, lon, values data_max).

Definition grib_to_geojson (grib_path : string) : M FeatureCollection :=
  print (ProcessOpening grib_path) ;;
  ds <- lift (open_dataset grib_path) ;;
  field <- reduced_field ds ;;
  let '(lat, lon, values) := field in
  if negb (ndim values =? 2)%nat then
    lift (Raise (RuntimeError_shape (shape values)))
  else
    let '(q2, q5, q20) := compute_thresholds values in
    print (InfoThresholds q2 q5 q20) ;;
    features <- lift (build_features lat lon values q2 q5 q20) ;;
    let geojson :=
      {| collection_type := "FeatureCollection";
         features := features |} in
    print (DoneGeoJSON (length features)) ;;
    ret geojson.

End Pipeline.

(** ** Cells

    The index pairs that the two loops visit, in the order in which they
    visit them, and what the loop body adds to the features at one of
    them. *)

Definition cells (lat lon : list pyfloat) : list (nat * nat) :=
  list_prod (range (Z.of_nat (length lat) - 1))
            (range (Z.of_nat (length lon) - 1)).

Definition emitted {A} (r : result (list A)) : list A :=
  match r with
  | Ok l => l
  | Raise _ => []
  end.

Definition cell_features (boundary : option Polygon)
    (lat lon : list pyfloat) (field : ndarray) (q2 q5 q20 : pyfloat)
    (c : nat * nat) : list Feature :=
  emitted (cell_body boundary lat lon field q2 q5 q20 (fst c) (snd c) []).

(** A loop body that only appends to its accumulator. *)
Definition appends {X A} (body : X -> list A -> result (list A)) : Prop :=
  forall x acc, body x acc = (l <~ body x [] ;; Ok (acc ++ l)).

(** The center of two coordinates, as the clipping test computes it. *)
Definition midpoint (a b : pyfloat) : pyfloat :=
  fmul (Finite 0.5) (fadd a b).

(** The closed ring of a cell. *)
Definition cell_ring (lon_left lon_right lat_top lat_bottom : pyfloat)
  : list (list pyfloat) :=
  [ [lon_left; lat_top];
    [lon_right; lat_top];
    [lon_right; lat_bottom];
    [lon_left; lat_bottom];
    [lon_left; lat_top] ].

(** The feature of a cell with the node value [v]. *)
Definition cell_feature (v lon_left lon_right lat_top lat_bottom : pyfloat)
    (level color : option string) : Feature :=
  {| feature_type := "Feature";
     geometry :=
       {| geometry_type := "Polygon";
          coordinates :=
            [cell_ring lon_left lon_right lat_top lat_bottom] |};
     properties :=
       {| discharge := round2 v;
          risk_level := level;
          risk_color := color |} |}.

(** The clipping test of a cell: passed when no boundary is configured. *)
Definition inside_boundary (boundary : option Polygon)
    (lon_left lon_right lat_top lat_bottom : pyfloat) : bool :=
  match boundary with
  | Some b =>
      contains b (midpoint lon_left lon_right) (midpoint lat_top lat_bottom)
  | None => true
  end.

(** The returned collection. *)
Definition collection (fs : list Feature) : FeatureCollection :=
  {| collection_type := "FeatureCollection"; features := fs |}.

Definition cell_eqb (c d : nat * nat) : bool :=
  (fst c =? fst d)%nat && (snd c =? snd d)%nat.

(** Modelled from the spec: the clipping rule of a cell, for a given
    containment test.  A cell adds a feature exactly when its node value is
    classified and the test accepts the center of its bounding box. *)
Definition clipping_rule (test : Polygon -> pyfloat -> pyfloat -> bool)
    (boundary : Polygon) (lat lon : list pyfloat) (field : ndarray)
    (q2 q5 q20 : pyfloat) : Prop :=
  forall i j lon_left lon_right lat_top lat_bottom,
    In (i, j) (cells lat lon) ->
    nth_error lon j = Some lon_left ->
    nth_error lon (j + 1) = Some lon_right ->
    nth_error lat i = Some lat_top ->
    nth_error lat (i + 1) = Some lat_bottom ->
    (cell_features (Some boundary) lat lon field q2 q5 q20 (i, j) <> [] <->
     fst (classify_point (item field [i; j]) q2 q5 q20) <> None /\
     test boundary (midpoint lon_left lon_right)
                   (midpoint lat_top lat_bottom) = true).

(** ** Example cubes *)

(** A cube with one variable over (latitude, longitude). *)
Definition grid_cube (name : string) (lat lon : list pyfloat)
    (rows : list (list pyfloat)) : Dataset :=
  {| data_vars :=
       [(name,
         {| sizes := [("latitude", length lat); ("longitude", length lon)];
            coords := [("latitude", map Number lat);
                       ("longitude", map Number lon)];
            data := item (array2d rows) |})];
     ds_coords := [("latitude", lat); ("longitude", lon)] |}.

(** The end-to-end example of the specification. *)
Definition example_lat : list pyfloat := [Finite 15.0; Finite 14.9].
Definition example_lon : list pyfloat := [Finite 107.0; Finite 107.1].
Definition example_rows : list (list pyfloat) :=
  [[Finite 0.5; Finite 12.0]; [Finite 3.0; Finite 0.1]].
Definition example_cube : Dataset :=
  grid_cube "dis24" example_lat example_lon example_rows.

(** A field with a zero, a negative and a [nan] node. *)
Definition injected_lat : list pyfloat := [Finite 3; Finite 2; Finite 1].
Definition injected_lon : list pyfloat := [Finite 0; Finite 1; Finite 2].
Definition injected_rows : list (list pyfloat) :=
  [[Finite 0; Finite (-1); Finite 7];
   [NaN; Finite 2; Finite 7];
   [Finite 7; Finite 7; Finite 7]].
Definition injected_cube : Dataset :=
  grid_cube "dis24" injected_lat injected_lon injected_rows.

(** A single row of nodes. *)
Definition row_cube : Dataset :=
  grid_cube "dis24" [Finite 15.0] example_lon [[Finite 0.5; Finite 12.0]].

(** A square boundary and a cell whose center (2, 1) lies on its eastern
    edge. *)
Definition square : Polygon :=
  {| exterior := [(0, 0); (2, 0); (2, 2); (0, 2); (0, 0)];
     interiors := [] |}.
Definition edge_lat : list pyfloat := [Finite 1.5; Finite 0.5].
Definition edge_lon : list pyfloat := [Finite 1.5; Finite 2.5].
Definition edge_rows : list (list pyfloat) :=
  [[Finite 1; Finite 1]; [Finite 1; Finite 1]].
Definition edge_cube : Dataset :=
  grid_cube "dis24" edge_lat edge_lon edge_rows.

(** The variable of a forecast cube, its 24 hour slice and, for one
    member, the slice without the ensemble dimension. *)
Definition forecast_var (members : nat) : DataArray :=
  {| sizes := [("step", 2%nat); ("number", members);
               ("latitude", 2%nat); ("longitude", 2%nat)];
     coords := [("step", [Number (Finite 24); Number (Finite 48)]);
                ("latitude", map Number example_lat);
                ("longitude", map Number example_lon)];
     data := fun idx =>
       match idx with
       | [s; m; i; j] =>
           fadd (item (array2d example_rows) [i; j])
                (Finite (inject_Z (Z.of_nat (s + m))))
       | _ => NaN
       end |}.

Definition forecast_24h (members : nat) : DataArray :=
  {| sizes := [("number", members);
               ("latitude", 2%nat); ("longitude", 2%nat)];
     coords := [("latitude", map Number example_lat);
                ("longitude", map Number example_lon)];
     data := fun idx => data (forecast_var members) (0%nat :: idx) |}.

Definition forecast_cube (members : nat) (var_name : string) : Dataset :=
  {| data_vars := [(var_name, forecast_var members)];
     ds_coords := [("step", [Finite 24; Finite 48]);
                   ("latitude", example_lat);
                   ("longitude", example_lon)] |}.

(** The features of the example runs. *)
Definition example_feature : Feature :=
  {| feature_type := "Feature";
     geometry :=
       {| geometry_type := "Polygon";
          coordinates :=
            [[ [Finite 107.0; Finite 15.0];
               [Finite 107.1; Finite 15.0];
               [Finite 107.1; Finite 14.9];
               [Finite 107.0; Finite 14.9];
               [Finite 107.0; Finite 15.0] ]] |};
     properties :=
       {| discharge := Finite (1 # 2);
          risk_level := Some "1";
          risk_color := Some "gray" |} |}.

Definition injected_feature : Feature :=
  {| feature_type := "Feature";
     geometry :=
       {| geometry_type := "Polygon";
          coordinates :=
            [[ [Finite 1; Finite 2];
               [Finite 2; Finite 2];
               [Finite 2; Finite 1];
               [Finite 1; Finite 1];
               [Finite 1; Finite 2] ]] |};
     properties :=
       {| discharge := Finite 2;
          risk_level := Some "1";
          risk_color := Some "gray" |} |}.

(** ** Severity

    The tiers in the order of the legend, the unclassified value below
    them. *)
Definition severity (c : option string * option string) : nat :=
  match fst c with
  | None => 0
  | Some level =>
      if String.eqb level "1" then 1
      else if String.eqb level "2" then 2
      else if String.eqb level "5" then 3
      else 4
  end%nat.

(** ** The daily download: [download_glofas_forecast]

    The clock, the files that exist and the CDS client are outside the
    function: the date is a parameter, the files are a state and
    [client.retrieve] is a parameter that either raises or returns the
    state in which it has written its target. *)

(** [datetime.now(VN_TZ)], as far as it is formatted. *)
Record datetime : Type := mk_datetime {
  year : nat;
  month : nat;
  day : nat
}.

Definition digit (n : nat) : ascii := ascii_of_nat (48 + n).

(** [%m] and [%d]: two digits. *)
Definition two_digits (n : nat) : string :=
  String (digit (n / 10)) (String (digit (n mod 10)) EmptyString).

(** [%Y], for a year of four digits. *)
Definition four_digits (y : nat) : string :=
  NilEmpty.string_of_uint (Nat.to_uint y).

(** [now_vn.strftime("%Y%m%d")] *)
Definition date_key_of (now_vn : datetime) : string :=
  four_digits (year now_vn) ++ two_digits (month now_vn)
    ++ two_digits (day now_vn).

(** [GRIB_TEMPLATE.format(date=date_key)] *)
Definition grib_path_of (now_vn : datetime) : string :=
  "glofas_forecast_gialai_" ++ date_key_of now_vn ++ ".grib".

Definition GIA_LAI_BBOX : list pyfloat :=
  [Finite 14.9; Finite 107.0; Finite 12.8; Finite 109.5].

Record request : Type := mk_request {
  system_version : string;
  hydrological_model : string;
  product_type : string;
  variable : string;
  request_year : string;
  request_month : string;
  request_day : string;
  leadtime_hour : list string;
  area : list pyfloat;
  format : string
}.

Definition request_params (now_vn : datetime) : request :=
  {| system_version := "operational";
     hydrological_model := "lisflood";
     product_type := "control_forecast";
     variable := "river_discharge_in_the_last_24_hours";
     request_year := four_digits (year now_vn);
     request_month := two_digits (month now_vn);
     request_day := two_digits (day now_vn);
     leadtime_hour := ["24"];
     area := GIA_LAI_BBOX;
     format := "grib" |}.

(** The paths that exist. *)
Record world : Type := mk_world {
  files : list string
}.

(** [os.path.exists(path)] *)
Definition path_exists (path : string) (w : world) : bool :=
  mem path (files w).

Inductive download_message : Type :=
| SkipExists (date_key grib_path : string)
| DownloadFetching (date_key : string)
| DoneDownloaded (grib_path : string).

Section Download.

(** [cdsapi.Client(url=CDS_URL, key=CDS_KEY).retrieve(name, request,
    target)] *)
Variable cds_retrieve : string -> request -> string -> world -> result world.

Definition download_glofas_forecast (now_vn : datetime) (w : world)
  : list download_message * result (string * world) :=
  let date_key := date_key_of now_vn in
  let grib_path := grib_path_of now_vn in
  if path_exists grib_path w then
    ([SkipExists date_key grib_path], Ok (grib_path, w))
  else
    match cds_retrieve "cems-glofas-forecast" (request_params now_vn)
            grib_path w with
    | Ok w' =>
        ([DownloadFetching date_key; DoneDownloaded grib_path],
         Ok (grib_path, w'))
    | Raise e => ([DownloadFetching date_key], Raise e)
    end.

End Download.

(** A client that writes its target. *)
Definition writing_client (name : string) (req : request) (target : string)
    (w : world) : result world :=
  Ok {| files := target :: files w |}.

(** ** The boundary builder: [geojsonbuilder.py]

    A feature of [vn.json] is its [properties.get("id")] and its geometry;
    geometries and their union are those of shapely and stay abstract. *)

Section Builder.

Variable geom : Type.
Variable unary_union : list geom -> geom.






End Builder.

(** ** Further example data *)

(** A field without a finite positive value. *)
Definition dry_rows : list (list pyfloat) :=
  [[Finite 0; NaN]; [Finite (-1); NegInf]].
Definition dry_cube : Dataset :=
  grid_cube "dis24" example_lat example_lon dry_rows.

(** The example field with other values on its last row and column. *)
Definition border_rows : list (list pyfloat) :=
  [[Finite 0.5; Finite 99]; [Finite 98; Finite 97]].

(** The example field on a projected grid: its dimensions are "y" and
    "x", and the cube has no latitude or longitude, neither as a
    coordinate nor as a dimension. *)
Definition projected_var : DataArray :=
  {| sizes := [("y", 2%nat); ("x", 2%nat)];
     coords := [];
     data := item (array2d example_rows) |}.
Definition projected_cube : Dataset :=
  {| data_vars := [("dis24", projected_var)];
     ds_coords := [] |}.

(** A forecast variable whose lead times start at 48 hours. *)
Definition late_var : DataArray :=
  {| sizes := [("step", 2%nat); ("latitude", 2%nat); ("longitude", 2%nat)];
     coords := [("step", [Number (Finite 48); Number (Finite 72)]);
                ("latitude", map Number example_lat);
                ("longitude", map Number example_lon)];
     data := fun idx =>
       match idx with
       | [s; i; j] =>
           fadd (item (array2d example_rows) [i; j])
                (Finite (inject_Z (Z.of_nat s)))
       | _ => NaN
       end |}.

(** The field of the forecast cube with one member. *)
Definition forecast_field : DataArray :=
  {| sizes := [("latitude", 2%nat); ("longitude", 2%nat)];
     coords := [("latitude", map Number example_lat);
                ("longitude", map Number example_lon)];
     data := fun idx => data (forecast_24h 1) (0%nat :: idx) |}.

(** A forecast variable with two lead times, both labelled 24. *)
Definition repeated_var : DataArray :=
  {| sizes := [("step", 2%nat); ("latitude", 2%nat); ("longitude", 2%nat)];
     coords := [("step", [Number (Finite 24); Number (Finite 24)]);
                ("latitude", map Number example_lat);
                ("longitude", map Number example_lon)];
     data := data late_var |}.
Definition repeated_cube : Dataset :=
  {| data_vars := [("dis24", repeated_var)];
     ds_coords := [("latitude", example_lat); ("longitude", example_lon)] |}.

(** A forecast variable as cfgrib decodes it: the lead times of 24 and 48
    hours are time spans, in nanoseconds. *)
Definition cfgrib_var : DataArray :=
  {| sizes := [("step", 2%nat); ("latitude", 2%nat); ("longitude", 2%nat)];
     coords := [("step", [Timedelta 86400000000000;
                          Timedelta 172800000000000]);
                ("latitude", map Number example_lat);
                ("longitude", map Number example_lon)];
     data := data late_var |}.

(** A cube that declares "dis" before "dis24". *)
Definition two_names_cube : Dataset :=
  {| data_vars := [("dis", forecast_var 3); ("dis24", forecast_var 1)];
     ds_coords := [("latitude", example_lat); ("longitude", example_lon)] |}.

(** The projected grid with its latitudes and longitudes as data
    variables over "y" and over "x". *)
Definition variables_cube : Dataset :=
  {| data_vars :=
       [("dis24", projected_var);
        ("lat", {| sizes := [("y", 2%nat)];
                   coords := [];
                   data := fun idx =>
                     match idx with
                     | [i] => nth i example_lat NaN
                     | _ => NaN
                     end |});
        ("lon", {| sizes := [("x", 2%nat)];
                   coords := [];
                   data := fun idx =>
                     match idx with
                     | [j] => nth j example_lon NaN
                     | _ => NaN
                     end |})];
     ds_coords := [] |}.

(** The example field over dimensions "lat" and "lon" that have no
    coordinate arrays. *)
Definition bare_cube : Dataset :=
  {| data_vars :=
       [("dis24", {| sizes := [("lat", 2%nat); ("lon", 2%nat)];
                     coords := [];
                     data := item (array2d example_rows) |})];
     ds_coords := [] |}.

Definition example_day : datetime :=
  {| year := 2025; month := 11; day := 19 |}.



(** ** The reduction, as the specification words it *)

(** Modelled from the spec: the values that a mask keeps, in their order:
    those that satisfy the test, and no other. *)
Inductive masked (test : pyfloat -> Prop)
  : list pyfloat -> list pyfloat -> Prop :=
| masked_nil : masked test [] []
| masked_keep x l kept :
    test x -> masked test l kept -> masked test (x :: l) (x :: kept)
| masked_drop x l kept :
    ~ test x -> masked test l kept -> masked test (x :: l) kept.

(** Modelled from the spec: [r] is the percentile of rank [p] of the
    sorted values [s], by linear interpolation between the two order
    statistics around the position [(n - 1) * p]. *)
Definition interpolates (s : list pyfloat) (p r : Q) : Prop :=
  let h := inject_Z (Z.of_nat (length s) - 1) * p in
  let k := Z.to_nat (Qfloor h) in
  exists a b,
    nth_error s k = Some (Finite a) /\
    nth_error s (Nat.min (k + 1) (length s - 1)) = Some (Finite b) /\
    r == a + (b - a) * (h - inject_Z (Qfloor h)).

(** The step coordinate along a dimension "step" has one label per
    position of the dimension. *)
Definition step_well_formed (var : DataArray) : Prop :=
  forall labels,
    mem "step" (dims var) = true ->
    lookup "step" (coords var) = Some labels ->
    lookup "step" (sizes var) = Some (length labels).

(** The number of lead times labelled 24. *)
Definition lead_time_hits (var : DataArray) : nat :=
  match lookup "step" (coords var) with
  | Some labels => length (filter (label_is 24) labels)
  | None => 0
  end.

Fixpoint set_size (name : string) (n : nat) (l : list (string * nat))
  : list (string * nat) :=
  match l with
  | [] => []
  | (k, m) :: l' =>
      if String.eqb name k then (k, n) :: l'
      else (k, m) :: set_size name n l'
  end.

(** Modelled from the spec: the dimensions after the lead time is
    selected.  The lead-time dimension goes, the others stay; when several
    lead times are labelled 24 the selection keeps them all, along a
    lead-time dimension of that size. *)
Definition after_lead_time (var : DataArray) : list (string * nat) :=
  if mem "step" (dims var) then
    if (2 <=? lead_time_hits var)%nat
    then set_size "step" (lead_time_hits var) (sizes var)
    else remove_key "step" (sizes var)
  else sizes var.

(** Modelled from the spec: the dimensions of the reduced field: those
    left by the lead time, without the non-spatial ones of size one. *)
Definition reduced_sizes (var : DataArray) : list (string * nat) :=
  filter (fun d => is_spatial (fst d) || negb (snd d =? 1)%nat)
    (after_lead_time var).

(** * Properties *)

(** ** Facts about the float order *)

Lemma fle_iff (x y : pyfloat) : fle x y = true <-> Fle x y.
Proof.
  split.
  - destruct x, y; simpl; intros H; try discriminate; try constructor.
    now apply Qle_bool_iff.
  - intros H; inversion H; subst; simpl; trivial.
    now apply Qle_bool_iff.
Qed.

Lemma flt_iff (x y : pyfloat) : flt x y = true <-> Flt x y.
Proof.
  split.
  - destruct x, y; simpl; intros H; try discriminate; try constructor.
    apply negb_true_iff in H. apply Qnot_le_lt. intros Hle.
    apply Qle_bool_iff in Hle. congruence.
  - intros H; inversion H; subst; simpl; trivial.
    apply negb_true_iff. destruct (Qle_bool b a) eqn:E; trivial.
    apply Qle_bool_iff in E. exfalso. now apply (Qlt_not_le a b).
Qed.

Lemma fle_false_iff (x y : pyfloat) : fle x y = false <-> ~ Fle x y.
Proof.
  rewrite <- fle_iff. destruct (fle x y); split; intros; congruence.
Qed.

Lemma finite_not_le_zero (v : pyfloat) :
  isfinite v = true -> fle v fzero = false -> Flt fzero v.
Proof.
  destruct v; simpl; try discriminate. intros _ H.
  constructor. apply Qnot_le_lt. intros Hle.
  apply Qle_bool_iff in Hle. congruence.
Qed.

(** ** Risk classification *)

Lemma classify_point_finite v q2 q5 q20 level color :
  classify_point v q2 q5 q20 = (Some level, color) -> isfinite v = true.
Proof.
  unfold classify_point. destruct (isfinite v); trivial. discriminate.
Qed.

(** C6: [classify_point] follows the decision table: no classification for
    a non-finite or non-positive value, and otherwise the highest tier whose
    threshold the value reaches, a value equal to a threshold reaching it. *)
Theorem classify_point_tiers (v q2 q5 q20 : pyfloat) :
  risk_tier v q2 q5 q20 (classify_point v q2 q5 q20).
Proof.
  unfold classify_point, fge.
  destruct (isfinite v) eqn:Hfin; simpl.
  - destruct (fle v fzero) eqn:H0.
    + apply tier_none. right. now apply fle_iff.
    + pose proof (finite_not_le_zero v Hfin H0) as Hpos.
      destruct (fle q20 v) eqn:H20.
      * apply tier_20; trivial. now apply fle_iff.
      * apply fle_false_iff in H20.
        destruct (fle q5 v) eqn:H5.
        -- apply tier_5; trivial. now apply fle_iff.
        -- apply fle_false_iff in H5.
           destruct (fle q2 v) eqn:H2.
           ++ apply tier_2; trivial. now apply fle_iff.
           ++ apply fle_false_iff in H2. now apply tier_1.
  - apply tier_none. now left.
Qed.

(** ** Sorting *)

Lemma posfin_inv (v : pyfloat) :
  posfin v -> exists q, v = Finite q /\ 0 < q.
Proof. destruct v; simpl; intros H; try contradiction. now exists q. Qed.

Lemma insert_sorted_Forall (P : pyfloat -> Prop) x l :
  P x -> Forall P l -> Forall P (insert_sorted x l).
Proof.
  intros Hx Hl. induction Hl as [|y l Hy Hl IH]; simpl.
  - now constructor.
  - destruct (fle x y); repeat constructor; trivial.
Qed.

Lemma np_sort_Forall (P : pyfloat -> Prop) l :
  Forall P l -> Forall P (np_sort l).
Proof.
  induction 1 as [|x l Hx Hl IH]; simpl; [constructor|].
  now apply insert_sorted_Forall.
Qed.

Lemma insert_sorted_length x l :
  length (insert_sorted x l) = S (length l).
Proof.
  induction l as [|y l IH]; simpl; trivial.
  destruct (fle x y); simpl; congruence.
Qed.

Lemma np_sort_length l : length (np_sort l) = length l.
Proof.
  induction l as [|x l IH]; simpl; trivial.
  rewrite insert_sorted_length. congruence.
Qed.

Lemma Fle_trans x y z : Fle x y -> Fle y z -> Fle x z.
Proof.
  intros H1 H2; inversion H1; subst; inversion H2; subst; constructor.
  eapply Qle_trans; eassumption.
Qed.

Lemma fle_total_posfin x y :
  posfin x -> posfin y -> fle x y = false -> Fle y x.
Proof.
  intros Hx Hy H.
  destruct (posfin_inv x Hx) as (a & -> & _).
  destruct (posfin_inv y Hy) as (b & -> & _).
  simpl in H. constructor.
  destruct (Qlt_le_dec a b) as [Hlt|Hle]; trivial.
  apply Qlt_le_weak, Qle_bool_iff in Hlt. congruence.
Qed.

Lemma insert_sorted_sorted x l :
  posfin x -> Forall posfin l ->
  StronglySorted Fle l -> StronglySorted Fle (insert_sorted x l).
Proof.
  intros Hx Hl Hs. induction Hs as [|y l Hs IH Hy]; simpl.
  - repeat constructor.
  - inversion Hl as [|? ? Hpy Hpl]; subst.
    destruct (fle x y) eqn:E.
    + apply fle_iff in E. constructor.
      * now constructor.
      * constructor; trivial.
        eapply Forall_impl; [|exact Hy].
        intros z Hz. eapply Fle_trans; eassumption.
    + constructor.
      * now apply IH.
      * apply insert_sorted_Forall; trivial.
        now apply fle_total_posfin.
Qed.

Lemma np_sort_sorted l :
  Forall posfin l -> StronglySorted Fle (np_sort l).
Proof.
  induction 1 as [|x l Hx Hl IH]; simpl; [constructor|].
  apply insert_sorted_sorted; trivial. now apply np_sort_Forall.
Qed.

Lemma Forall_nth_posfin s i :
  Forall posfin s -> (i < length s)%nat ->
  exists a, nth i s NaN = Finite a /\ 0 < a.
Proof.
  intros Hs Hi. apply posfin_inv.
  rewrite Forall_forall in Hs. apply Hs. now apply nth_In.
Qed.

Lemma sorted_nth_le s :
  StronglySorted Fle s -> Forall posfin s ->
  forall i j a b, (i <= j)%nat -> (j < length s)%nat ->
  nth i s NaN = Finite a -> nth j s NaN = Finite b -> a <= b.
Proof.
  induction 1 as [|x s Hs IH Hx]; intros Hp i j a b Hij Hj Ha Hb.
  - simpl in Hj. lia.
  - inversion Hp as [|? ? Hpx Hps]; subst.
    destruct i as [|i], j as [|j]; simpl in *.
    + rewrite Ha in Hb. injection Hb as ->. apply Qle_refl.
    + rewrite Forall_forall in Hx.
      assert (Hin : In (nth j s NaN) s) by (apply nth_In; lia).
      apply Hx in Hin. rewrite Ha, Hb in Hin. now inversion Hin.
    + lia.
    + apply (IH Hps i j); trivial; lia.
Qed.

(** ** Quantiles *)

Lemma lerp_finite a b t :
  exists r, lerp (Finite a) (Finite b) t = Finite r /\ r == a + (b - a) * t.
Proof.
  unfold lerp, fsub, fadd, fmul, fneg.
  destruct (Qle_bool (1 # 2) t); eexists; (split; [reflexivity|]);
    rewrite !Qred_correct; ring.
Qed.

Lemma virtual_index_range (n : nat) (p : Q) :
  (0 < n)%nat -> 0 <= p -> p <= 1 ->
  let v := inject_Z (Z.of_nat n - 1) * p in
  0 <= v /\ v <= inject_Z (Z.of_nat n - 1) /\
  (0 <= Qfloor v <= Z.of_nat n - 1)%Z /\
  0 <= v - inject_Z (Qfloor v) /\ v - inject_Z (Qfloor v) <= 1.
Proof.
  intros Hn Hp0 Hp1 v.
  assert (Hm : 0 <= inject_Z (Z.of_nat n - 1)).
  { change 0 with (inject_Z 0). rewrite <- Zle_Qle. lia. }
  assert (Hv0 : 0 <= v) by (unfold v; nra).
  assert (Hv1 : v <= inject_Z (Z.of_nat n - 1)) by (unfold v; nra).
  repeat split; trivial.
  - change 0%Z with (Qfloor (inject_Z 0)). rewrite Qfloor_Z.
    rewrite <- (Qfloor_Z 0). now apply Qfloor_resp_le.
  - rewrite <- (Qfloor_Z (Z.of_nat n - 1)). now apply Qfloor_resp_le.
  - pose proof (Qfloor_le v). lra.
  - pose proof (Qlt_floor v) as H. rewrite inject_Z_plus in H.
    change (inject_Z 1) with 1 in H. lra.
Qed.

Lemma np_quantile_spec (arr : list pyfloat) (p : Q) :
  arr <> [] -> Forall posfin arr -> 0 <= p -> p <= 1 ->
  let s := np_sort arr in
  let n := length arr in
  let v := inject_Z (Z.of_nat n - 1) * p in
  let lo := Z.to_nat (Qfloor v) in
  exists a b r,
    nth lo s NaN = Finite a /\
    nth (Nat.min (lo + 1) (n - 1)) s NaN = Finite b /\
    np_quantile arr p = Finite r /\
    0 < a /\ a <= b /\
    r == a + (b - a) * (v - inject_Z (Qfloor v)) /\
    (lo < n)%nat.
Proof.
  intros Hne Hpos Hp0 Hp1 s n v lo.
  assert (Hn : (0 < n)%nat).
  { unfold n. destruct arr; [congruence | simpl; lia]. }
  destruct (virtual_index_range n p Hn Hp0 Hp1) as (_ & _ & Hfl & _ & _).
  fold v in Hfl.
  assert (Hlo : (lo < n)%nat) by (unfold lo; lia).
  assert (Hlen : length s = n) by apply np_sort_length.
  assert (Hs : Forall posfin s) by now apply np_sort_Forall.
  destruct (Forall_nth_posfin s lo Hs) as (a & Ha & Ha0); [lia|].
  destruct (Forall_nth_posfin s (Nat.min (lo + 1) (n - 1)) Hs)
    as (b & Hb & Hb0); [lia|].
  destruct (lerp_finite a b (v - inject_Z (Qfloor v))) as (r & Hr & Hreq).
  exists a, b, r. repeat split; trivial.
  - unfold np_quantile. fold s. rewrite Hlen. fold v. fold lo.
    now rewrite Ha, Hb.
  - apply (sorted_nth_le s (np_sort_sorted arr Hpos) Hs
             lo (Nat.min (lo + 1) (n - 1))); trivial; lia.
Qed.

(** The quantile is strictly positive and monotone in its rank. *)
Lemma np_quantile_mono (arr : list pyfloat) (p p' : Q) :
  arr <> [] -> Forall posfin arr -> 0 <= p -> p <= p' -> p' <= 1 ->
  exists r r',
    np_quantile arr p = Finite r /\ np_quantile arr p' = Finite r' /\
    0 < r /\ r <= r'.
Proof.
  intros Hne Hpos Hp0 Hpp Hp1.
  assert (Hn : (0 < length arr)%nat).
  { destruct arr; [congruence | simpl; lia]. }
  assert (Hp1' : p <= 1) by lra.
  assert (Hp0' : 0 <= p') by lra.
  destruct (np_quantile_spec arr p Hne Hpos Hp0 Hp1')
    as (a & b & r & Ha & Hb & Hr & Ha0 & Hab & Hreq & Hlo).
  destruct (np_quantile_spec arr p' Hne Hpos Hp0' Hp1)
    as (a' & b' & r' & Ha' & Hb' & Hr' & Ha0' & Hab' & Hreq' & Hlo').
  destruct (virtual_index_range _ p Hn Hp0 Hp1') as (_ & _ & Hfl & Hg0 & Hg1).
  destruct (virtual_index_range _ p' Hn Hp0' Hp1) as (_ & _ & Hfl' & Hg0' & Hg1').
  set (n := length arr) in *.
  set (v := inject_Z (Z.of_nat n - 1) * p) in *.
  set (v' := inject_Z (Z.of_nat n - 1) * p') in *.
  assert (Hm : 0 <= inject_Z (Z.of_nat n - 1)).
  { change 0 with (inject_Z 0). rewrite <- Zle_Qle. lia. }
  assert (Hvv : v <= v') by (unfold v, v'; nra).
  assert (Hff : (Qfloor v <= Qfloor v')%Z) by now apply Qfloor_resp_le.
  exists r, r'. repeat split; trivial.
  - nra.
  - destruct (Z.eq_dec (Qfloor v) (Qfloor v')) as [E|E].
    + rewrite <- E in *. rewrite Ha in Ha'. injection Ha' as <-.
      rewrite Hb in Hb'. injection Hb' as <-. nra.
    + assert (Hlt : (Z.to_nat (Qfloor v) + 1 <= Z.to_nat (Qfloor v'))%nat) by lia.
      assert (Hba' : b <= a').
      { apply (sorted_nth_le (np_sort arr) (np_sort_sorted arr Hpos)
                 (np_sort_Forall posfin arr Hpos)
                 (Nat.min (Z.to_nat (Qfloor v) + 1) (n - 1))
                 (Z.to_nat (Qfloor v'))); trivial.
        - lia.
        - rewrite np_sort_length. exact Hlo'. }
      nra.
Qed.

(** ** Thresholds *)

Lemma positive_values_posfin (values : ndarray) :
  Forall posfin (positive_values values).
Proof.
  unfold positive_values. apply Forall_forall. intros v Hv.
  apply filter_In in Hv. destruct Hv as [_ Hv].
  apply andb_true_iff in Hv. destruct Hv as [Hfin Hgt].
  destruct v; try discriminate.
  unfold fgt in Hgt. apply flt_iff in Hgt. now inversion Hgt.
Qed.

Lemma compute_thresholds_nonempty (values : ndarray) :
  positive_values values <> [] ->
  compute_thresholds values =
    (np_quantile (positive_values values) 0.55,
     np_quantile (positive_values values) 0.85,
     np_quantile (positive_values values) 0.98).
Proof.
  unfold compute_thresholds. intros H.
  destruct (positive_values values); [congruence | reflexivity].
Qed.

Lemma compute_thresholds_empty (values : ndarray) :
  positive_values values = [] ->
  compute_thresholds values = (Finite 1, Finite 5, Finite 10).
Proof. unfold compute_thresholds. now intros ->. Qed.

(** C3: the thresholds are non-negative and non-decreasing, for the
    defaults as for the 55th, 85th and 98th percentiles of the finite
    positive values. *)
Theorem compute_thresholds_ordered (values : ndarray) :
  let '(q2, q5, q20) := compute_thresholds values in
  Fle fzero q2 /\ Fle q2 q5 /\ Fle q5 q20.
Proof.
  destruct (positive_values values) eqn:E.
  - rewrite (compute_thresholds_empty values E).
    repeat split; constructor; discriminate.
  - assert (Hne : positive_values values <> []) by congruence.
    rewrite (compute_thresholds_nonempty values Hne).
    pose proof (positive_values_posfin values) as Hpos.
    destruct (np_quantile_mono _ 0.55 0.85 Hne Hpos)
      as (r2 & r5 & H2 & H5 & H0 & H25); try discriminate.
    destruct (np_quantile_mono _ 0.85 0.98 Hne Hpos)
      as (r5' & r20 & H5' & H20 & _ & H520); try discriminate.
    rewrite H5 in H5'. injection H5' as <-.
    rewrite H2, H5, H20.
    repeat split; constructor; trivial. now apply Qlt_le_weak.
Qed.

Lemma mask_posfin (v : pyfloat) :
  isfinite v && fgt v fzero = true <-> posfin v.
Proof.
  destruct v as [q| | |]; simpl; try (split; [discriminate | contradiction]).
  unfold fgt. change (flt fzero (Finite q) = true <-> 0 < q).
  rewrite flt_iff. split; [intros H; now inversion H | now constructor].
Qed.

Lemma filter_masked (l : list pyfloat) :
  masked posfin l (filter (fun v => isfinite v && fgt v fzero) l).
Proof.
  induction l as [|x l IH]; [constructor|]. cbn [filter].
  destruct (isfinite x && fgt x fzero) eqn:E.
  - apply masked_keep; trivial. now apply mask_posfin.
  - apply masked_drop; trivial. intros H. apply mask_posfin in H. congruence.
Qed.

Lemma insert_sorted_perm x l : Permutation (insert_sorted x l) (x :: l).
Proof.
  induction l as [|y l IH]; simpl; [reflexivity|].
  destruct (fle x y); [reflexivity|].
  rewrite IH. apply perm_swap.
Qed.

Lemma np_sort_perm l : Permutation (np_sort l) l.
Proof.
  induction l as [|x l IH]; simpl; [reflexivity|].
  rewrite insert_sorted_perm. now constructor.
Qed.

(** The quantile of the model is the interpolated percentile of the
    sorted values. *)
Lemma np_quantile_interpolates (arr : list pyfloat) (p : Q) :
  arr <> [] -> Forall posfin arr -> 0 <= p -> p <= 1 ->
  exists r, np_quantile arr p = Finite r /\ interpolates (np_sort arr) p r.
Proof.
  intros Hne Hpos Hp0 Hp1.
  destruct (np_quantile_spec arr p Hne Hpos Hp0 Hp1)
    as (a & b & r & Ha & Hb & Hr & _ & _ & Hreq & Hlo).
  exists r. split; trivial.
  unfold interpolates. rewrite np_sort_length. exists a, b.
  repeat split; trivial.
  - rewrite <- Ha. apply nth_error_nth'. now rewrite np_sort_length.
  - rewrite <- Hb. apply nth_error_nth'. rewrite np_sort_length. lia.
Qed.

(** C7: [compute_thresholds] returns three numbers for every array.  Its
    mask keeps, in their order, exactly the values that are finite and
    strictly positive; when the array has none the result is the defaults
    (1, 5, 10); otherwise it is the 55th, 85th and 98th percentiles, by
    linear interpolation, of the kept values in sorted order; and two
    arrays with the same kept values have the same thresholds. *)
Theorem compute_thresholds_total (values : ndarray) :
  masked posfin (ravel values) (positive_values values) /\
  (exists a b c,
      compute_thresholds values = (Finite a, Finite b, Finite c)) /\
  ((forall v, In v (ravel values) -> ~ posfin v) ->
   compute_thresholds values = (Finite 1, Finite 5, Finite 10)) /\
  ((exists v, In v (ravel values) /\ posfin v) ->
   exists s r2 r5 r20,
     Permutation s (positive_values values) /\
     StronglySorted Fle s /\
     compute_thresholds values = (Finite r2, Finite r5, Finite r20) /\
     interpolates s 0.55 r2 /\
     interpolates s 0.85 r5 /\
     interpolates s 0.98 r20) /\
  (forall values' : ndarray,
      positive_values values' = positive_values values ->
      compute_thresholds values' = compute_thresholds values).
Proof.
  pose proof (positive_values_posfin values) as Hpos.
  assert (Hquant : positive_values values <> [] ->
            exists r2 r5 r20,
              compute_thresholds values = (Finite r2, Finite r5, Finite r20) /\
              interpolates (np_sort (positive_values values)) 0.55 r2 /\
              interpolates (np_sort (positive_values values)) 0.85 r5 /\
              interpolates (np_sort (positive_values values)) 0.98 r20).
  { intros Hne. rewrite (compute_thresholds_nonempty values Hne).
    destruct (np_quantile_interpolates _ 0.55 Hne Hpos) as (r2 & -> & H2);
      try discriminate.
    destruct (np_quantile_interpolates _ 0.85 Hne Hpos) as (r5 & -> & H5);
      try discriminate.
    destruct (np_quantile_interpolates _ 0.98 Hne Hpos) as (r20 & -> & H20);
      try discriminate.
    now exists r2, r5, r20. }
  split; [apply filter_masked|]. split; [|split; [|split]].
  - destruct (positive_values values) eqn:E.
    + rewrite (compute_thresholds_empty values E). now eexists _, _, _.
    + destruct Hquant as (r2 & r5 & r20 & -> & _); [discriminate|].
      now eexists _, _, _.
  - intros Hnone. apply compute_thresholds_empty.
    destruct (positive_values values) as [|v l] eqn:E; trivial.
    exfalso. apply (Hnone v).
    + assert (Hin : In v (positive_values values)) by (rewrite E; now left).
      unfold positive_values in Hin. now apply filter_In in Hin.
    + rewrite Forall_forall in Hpos. apply Hpos. now left.
  - intros (v & Hin & Hv).
    assert (Hne : positive_values values <> []).
    { assert (H : In v (positive_values values)).
      { unfold positive_values. apply filter_In. split; trivial.
        now apply mask_posfin. }
      intros E. rewrite E in H. contradiction. }
    destruct (Hquant Hne) as (r2 & r5 & r20 & Hthr & H2 & H5 & H20).
    exists (np_sort (positive_values values)), r2, r5, r20.
    repeat split; trivial.
    + apply np_sort_perm.
    + now apply np_sort_sorted.
  - intros values' E. unfold compute_thresholds. now rewrite E.
Qed.

(** ** Loops *)

Lemma for_each_appends {X A} (body : X -> list A -> result (list A)) xs :
  appends body ->
  forall acc,
    for_each xs body acc = (l <~ for_each xs body [] ;; Ok (acc ++ l)).
Proof.
  intros Hb. induction xs as [|x xs IH]; intros acc; simpl.
  - now rewrite app_nil_r.
  - rewrite (Hb x acc). destruct (body x []) as [l|e]; simpl; trivial.
    rewrite (IH (acc ++ l)), (IH l).
    destruct (for_each xs body []) as [l'|e]; simpl; trivial.
    now rewrite app_assoc.
Qed.

Lemma for_each_flat_map {X A} (body : X -> list A -> result (list A)) xs :
  appends body ->
  forall r, for_each xs body [] = Ok r ->
    r = flat_map (fun x => emitted (body x [])) xs /\
    Forall (fun x => exists l, body x [] = Ok l) xs.
Proof.
  intros Hb. induction xs as [|x xs IH]; simpl; intros r Hr.
  - injection Hr as <-. split; constructor.
  - destruct (body x []) as [l|e] eqn:E; simpl in Hr; [|discriminate].
    rewrite (for_each_appends body xs Hb l) in Hr.
    destruct (for_each xs body []) as [l'|e] eqn:E'; simpl in Hr;
      [|discriminate].
    injection Hr as <-. destruct (IH l' eq_refl) as [-> Hall].
    split; trivial. constructor; trivial. now exists l.
Qed.

Lemma flat_map_list_prod {X Y A} (f : X * Y -> list A) xs ys :
  flat_map f (list_prod xs ys) =
  flat_map (fun x => flat_map (fun y => f (x, y)) ys) xs.
Proof.
  induction xs as [|x xs IH]; simpl; trivial.
  rewrite flat_map_app, IH. f_equal. clear IH.
  induction ys as [|y ys IHy]; simpl; trivial. now rewrite IHy.
Qed.

Lemma flat_map_ext_in {X A} (f g : X -> list A) xs :
  (forall x, In x xs -> f x = g x) -> flat_map f xs = flat_map g xs.
Proof.
  induction xs as [|x xs IH]; simpl; intros H; trivial.
  rewrite (H x), IH; auto.
Qed.

Lemma flat_map_skip {X A} (f : X -> list A) (keep : X -> bool) xs :
  (forall x, In x xs -> keep x = false -> f x = []) ->
  flat_map f (filter keep xs) = flat_map f xs.
Proof.
  induction xs as [|x xs IH]; simpl; intros H; trivial.
  destruct (keep x) eqn:E; simpl.
  - rewrite IH; auto.
  - rewrite (H x), IH; auto.
Qed.

(** ** The loop body *)

Section Cells.

Variable boundary : option Polygon.
Variables lat lon : list pyfloat.
Variable field : ndarray.
Variables q2 q5 q20 : pyfloat.

Lemma cell_body_appends i : appends (cell_body boundary lat lon field q2 q5 q20 i).
Proof.
  intros j acc. unfold cell_body.
  destruct (getitem2 field i j) as [v|e]; simpl; trivial.
  destruct (classify_point v q2 q5 q20) as [[lvl|] col]; simpl;
    [|now rewrite app_nil_r].
  destruct (getitem lon j); simpl; trivial.
  destruct (getitem lon (j + 1)); simpl; trivial.
  destruct (getitem lat i); simpl; trivial.
  destruct (getitem lat (i + 1)); simpl; trivial.
  match goal with |- context [if ?c then _ else _] => destruct c end;
    simpl; trivial.
  now rewrite app_nil_r.
Qed.

Lemma row_appends :
  appends (fun i acc => for_each (range (Z.of_nat (length lon) - 1))
                          (cell_body boundary lat lon field q2 q5 q20 i) acc).
Proof. intros i acc. apply for_each_appends, cell_body_appends. Qed.

(** The features are those of the cells, in the order of the loops, and
    the body raised at no cell. *)
Lemma build_features_cells fs :
  build_features boundary lat lon field q2 q5 q20 = Ok fs ->
  fs = flat_map (cell_features boundary lat lon field q2 q5 q20)
         (cells lat lon) /\
  forall c, In c (cells lat lon) ->
    exists l, cell_body boundary lat lon field q2 q5 q20 (fst c) (snd c) [] = Ok l.
Proof.
  unfold build_features. intros H.
  apply (for_each_flat_map _ _ row_appends) in H. destruct H as [-> Hall].
  unfold cells. rewrite flat_map_list_prod. split.
  - apply flat_map_ext_in. intros i Hi.
    rewrite Forall_forall in Hall. destruct (Hall i Hi) as [l Hl].
    rewrite Hl. simpl.
    apply (for_each_flat_map _ _ (cell_body_appends i)) in Hl.
    now destruct Hl as [-> _].
  - intros [i j] Hc. apply in_prod_iff in Hc. destruct Hc as [Hi Hj].
    rewrite Forall_forall in Hall. destruct (Hall i Hi) as [l Hl].
    apply (for_each_flat_map _ _ (cell_body_appends i)) in Hl.
    destruct Hl as [_ Hl]. rewrite Forall_forall in Hl. now apply Hl.
Qed.

Lemma cell_body_eval i j v ll lr lt lb :
  getitem2 field i j = Ok v ->
  nth_error lon j = Some ll -> nth_error lon (j + 1) = Some lr ->
  nth_error lat i = Some lt -> nth_error lat (i + 1) = Some lb ->
  cell_body boundary lat lon field q2 q5 q20 i j [] =
    Ok (match classify_point v q2 q5 q20 with
        | (Some level, color) =>
            if inside_boundary boundary ll lr lt lb
            then [cell_feature v ll lr lt lb (Some level) color]
            else []
        | (None, _) => []
        end).
Proof.
  intros Hv Hll Hlr Hlt Hlb. unfold cell_body, getitem.
  rewrite Hv, Hll, Hlr, Hlt, Hlb. simpl.
  destruct (classify_point v q2 q5 q20) as [[level|] color]; simpl; trivial.
  unfold inside_boundary, midpoint.
  destruct boundary as [b|]; simpl; trivial.
  destruct (contains b _ _); reflexivity.
Qed.

Lemma cell_body_unclassified i j v acc :
  getitem2 field i j = Ok v ->
  isfinite v = false \/ Fle v fzero ->
  cell_body boundary lat lon field q2 q5 q20 i j acc = Ok acc.
Proof.
  intros Hv Hbad. unfold cell_body. rewrite Hv. simpl.
  assert (E : classify_point v q2 q5 q20 = (None, None)).
  { unfold classify_point. destruct Hbad as [-> | Hle]; trivial.
    apply fle_iff in Hle. rewrite Hle. now rewrite orb_true_r. }
  now rewrite E.
Qed.

Lemma in_cells i j :
  In (i, j) (cells lat lon) <->
  (Z.of_nat i < Z.of_nat (length lat) - 1)%Z /\
  (Z.of_nat j < Z.of_nat (length lon) - 1)%Z.
Proof.
  unfold cells, range. rewrite in_prod_iff, !in_seq. lia.
Qed.

Lemma cell_coordinates i j :
  In (i, j) (cells lat lon) ->
  exists ll lr lt lb,
    nth_error lon j = Some ll /\ nth_error lon (j + 1) = Some lr /\
    nth_error lat i = Some lt /\ nth_error lat (i + 1) = Some lb.
Proof.
  intros H. apply in_cells in H. destruct H as [Hi Hj].
  destruct (nth_error lon j) as [ll|] eqn:E1;
    [|apply nth_error_None in E1; lia].
  destruct (nth_error lon (j + 1)) as [lr|] eqn:E2;
    [|apply nth_error_None in E2; lia].
  destruct (nth_error lat i) as [lt|] eqn:E3;
    [|apply nth_error_None in E3; lia].
  destruct (nth_error lat (i + 1)) as [lb|] eqn:E4;
    [|apply nth_error_None in E4; lia].
  now exists ll, lr, lt, lb.
Qed.

Lemma cell_body_raises i j acc e :
  cell_body boundary lat lon field q2 q5 q20 i j acc = Raise e -> e = IndexError.
Proof.
  unfold cell_body, getitem2, getitem.
  destruct (shape field) as [|r [|c [|? ?]]]; simpl; try congruence.
  destruct ((i <? r)%nat && (j <? c)%nat); simpl; try congruence.
  destruct (classify_point _ q2 q5 q20) as [[level|] color]; simpl;
    try congruence.
  destruct (nth_error lon j); simpl; try congruence.
  destruct (nth_error lon (j + 1)); simpl; try congruence.
  destruct (nth_error lat i); simpl; try congruence.
  destruct (nth_error lat (i + 1)); simpl; try congruence.
  match goal with |- context [if ?c then _ else _] => destruct c end;
    congruence.
Qed.

End Cells.

Lemma for_each_raises {X S} (P : exception -> Prop)
    (body : X -> S -> result S) xs :
  (forall x s e, body x s = Raise e -> P e) ->
  forall s e, for_each xs body s = Raise e -> P e.
Proof.
  intros Hb. induction xs as [|x xs IH]; simpl; intros s e H.
  - discriminate.
  - destruct (body x s) as [s'|e'] eqn:E; simpl in H.
    + eapply IH; eassumption.
    + injection H as <-. eapply Hb; eassumption.
Qed.

(** The loops raise nothing but the index error of a field that is
    smaller than its coordinate arrays. *)
Lemma build_features_raises boundary lat lon field q2 q5 q20 e :
  build_features boundary lat lon field q2 q5 q20 = Raise e ->
  e = IndexError.
Proof.
  unfold build_features.
  apply (for_each_raises (fun e => e = IndexError)).
  intros i s e'.
  apply (for_each_raises (fun e => e = IndexError)).
  intros j s'. apply cell_body_raises.
Qed.

(** ** The pipeline after the reduction *)

Lemma grib_to_geojson_run boundary open_dataset grib_path ds out
    lat lon field q2 q5 q20 :
  open_dataset grib_path = Ok ds ->
  reduced_field ds = (out, Ok (lat, lon, field)) ->
  compute_thresholds field = (q2, q5, q20) ->
  snd (grib_to_geojson boundary open_dataset grib_path) =
    if negb (ndim field =? 2)%nat
    then Raise (RuntimeError_shape (shape field))
    else match build_features boundary lat lon field q2 q5 q20 with
         | Ok fs => Ok (collection fs)
         | Raise e => Raise e
         end.
Proof.
  intros Hopen Hred Hthr. unfold grib_to_geojson, bind, print, lift.
  rewrite Hopen, Hred. simpl.
  destruct (negb (ndim field =? 2)%nat); simpl; trivial.
  rewrite Hthr. simpl.
  destruct (build_features boundary lat lon field q2 q5 q20); reflexivity.
Qed.

(** ** Rounding *)

Lemma round_half_even_near (x : Q) :
  Qabs (inject_Z (round_half_even x) - x) <= 1 # 2.
Proof.
  unfold round_half_even.
  pose proof (Qfloor_le x) as Hlo. pose proof (Qlt_floor x) as Hhi.
  rewrite inject_Z_plus in Hhi. change (inject_Z 1) with 1 in Hhi.
  apply Qabs_Qle_condition.
  destruct (Qcompare_spec (x - inject_Z (Qfloor x)) (1 # 2)) as [E|E|E].
  - destruct (Z.even (Qfloor x)).
    + split; lra.
    + rewrite inject_Z_plus. change (inject_Z 1) with 1. split; lra.
  - split; lra.
  - rewrite inject_Z_plus. change (inject_Z 1) with 1. split; lra.
Qed.

(** [round2] gives the nearest multiple of one hundredth. *)
Lemma round2_nearest (q : Q) :
  exists k : Z,
    round2 (Finite q) = Finite (Qred (inject_Z k / 100)) /\
    Qabs (inject_Z k / 100 - q) <= 1 # 200.
Proof.
  exists (round_half_even (q * 100)). split; trivial.
  pose proof (round_half_even_near (q * 100)) as H.
  apply Qabs_Qle_condition in H. apply Qabs_Qle_condition.
  set (k := inject_Z (round_half_even (q * 100))) in *.
  assert (E : k / 100 == k * (1 # 100)) by (field; discriminate).
  rewrite E. split; lra.
Qed.

(** ** Cells of the grid *)

Lemma getitem2_item a i j v : getitem2 a i j = Ok v -> v = item a [i; j].
Proof.
  unfold getitem2. destruct (shape a) as [|r [|c [|? ?]]]; try discriminate.
  destruct ((i <? r)%nat && (j <? c)%nat); congruence.
Qed.

Lemma cell_body_ok_item boundary lat lon field q2 q5 q20 i j l :
  cell_body boundary lat lon field q2 q5 q20 i j [] = Ok l ->
  getitem2 field i j = Ok (item field [i; j]).
Proof.
  unfold cell_body. intros H.
  destruct (getitem2 field i j) as [v|e] eqn:E; [|discriminate].
  now rewrite (getitem2_item _ _ _ _ E).
Qed.

Lemma for_each_skip {X S} (xs : list X) (s : S) :
  for_each xs (fun _ s => Ok s) s = Ok s.
Proof. induction xs; simpl; trivial. Qed.

Lemma cell_eqb_eq c d : cell_eqb c d = true <-> c = d.
Proof.
  destruct c, d. unfold cell_eqb. simpl.
  rewrite andb_true_iff, !Nat.eqb_eq. split; [intros [-> ->]|intros [= -> ->]]; auto.
Qed.

(** What a successful run returns: the features of the cells in the order
    of the loops, every cell having been read without an error. *)
Lemma grib_to_geojson_features boundary open_dataset grib_path ds out
    lat lon field q2 q5 q20 fc :
  open_dataset grib_path = Ok ds ->
  reduced_field ds = (out, Ok (lat, lon, field)) ->
  compute_thresholds field = (q2, q5, q20) ->
  snd (grib_to_geojson boundary open_dataset grib_path) = Ok fc ->
  fc = collection (flat_map (cell_features boundary lat lon field q2 q5 q20)
                     (cells lat lon)) /\
  forall i j, In (i, j) (cells lat lon) ->
    getitem2 field i j = Ok (item field [i; j]).
Proof.
  intros Hopen Hred Hthr Hrun.
  rewrite (grib_to_geojson_run _ _ _ _ _ _ _ _ _ _ _ Hopen Hred Hthr) in Hrun.
  destruct (negb (ndim field =? 2)%nat); [discriminate|].
  destruct (build_features boundary lat lon field q2 q5 q20) as [fs|e] eqn:E;
    [|discriminate].
  injection Hrun as <-.
  apply build_features_cells in E. destruct E as [-> Hall]. split; trivial.
  intros i j Hc. destruct (Hall _ Hc) as [l Hl]. simpl in Hl.
  eapply cell_body_ok_item; eassumption.
Qed.

(** ** The polygonizer *)

(** C10: when the latitudes or the longitudes have fewer than two entries
    the loops visit no cell, and the run returns the empty collection
    without an error, whatever the field holds and whether or not a
    boundary is configured. *)
Theorem short_axis_no_features boundary open_dataset grib_path ds out
    lat lon field :
  open_dataset grib_path = Ok ds ->
  reduced_field ds = (out, Ok (lat, lon, field)) ->
  ndim field = 2%nat ->
  (length lat < 2 \/ length lon < 2)%nat ->
  cells lat lon = [] /\
  snd (grib_to_geojson boundary open_dataset grib_path) = Ok (collection []).
Proof.
  intros Hopen Hred Hdim Hshort.
  destruct (compute_thresholds field) as [[q2 q5] q20] eqn:Hthr.
  rewrite (grib_to_geojson_run _ _ _ _ _ _ _ _ _ _ _ Hopen Hred Hthr).
  rewrite Hdim. simpl. unfold cells, build_features, range.
  destruct Hshort as [H|H].
  - replace (Z.to_nat (Z.of_nat (length lat) - 1)) with 0%nat by lia.
    now simpl.
  - replace (Z.to_nat (Z.of_nat (length lon) - 1)) with 0%nat by lia.
    simpl. rewrite for_each_skip. split; trivial.
    induction (seq 0 (Z.to_nat (Z.of_nat (length lat) - 1))); simpl; trivial.
Qed.

(** C2: a cell whose node value is not finite or not strictly positive
    adds no feature: the collection is the one of the loops that leave this
    cell out, with or without a boundary. *)
Theorem unclassified_cell_omitted boundary open_dataset grib_path ds out
    lat lon field q2 q5 q20 fc i j :
  open_dataset grib_path = Ok ds ->
  reduced_field ds = (out, Ok (lat, lon, field)) ->
  compute_thresholds field = (q2, q5, q20) ->
  snd (grib_to_geojson boundary open_dataset grib_path) = Ok fc ->
  In (i, j) (cells lat lon) ->
  isfinite (item field [i; j]) = false \/ Fle (item field [i; j]) fzero ->
  cell_features boundary lat lon field q2 q5 q20 (i, j) = [] /\
  features fc =
    flat_map (cell_features boundary lat lon field q2 q5 q20)
      (filter (fun c => negb (cell_eqb c (i, j))) (cells lat lon)).
Proof.
  intros Hopen Hred Hthr Hrun Hc Hbad.
  destruct (grib_to_geojson_features _ _ _ _ _ _ _ _ _ _ _ _
              Hopen Hred Hthr Hrun) as [-> Hitems].
  assert (E : cell_features boundary lat lon field q2 q5 q20 (i, j) = []).
  { unfold cell_features. simpl.
    now rewrite (cell_body_unclassified _ _ _ _ _ _ _ _ _ _ _
                   (Hitems i j Hc) Hbad). }
  split; trivial. simpl. symmetry. apply flat_map_skip.
  intros c _ Hk. apply negb_false_iff, cell_eqb_eq in Hk. now subst c.
Qed.

(** C5: every feature of the collection belongs to a cell (i, j) of the
    grid; its polygon is the single ring top-left, top-right, bottom-right,
    bottom-left, top-left of that cell, each vertex as longitude then
    latitude, and its discharge is the value of the field at the node
    (i, j), rounded to the nearest hundredth. *)
Theorem feature_of_cell boundary open_dataset grib_path ds out
    lat lon field q2 q5 q20 fc f :
  open_dataset grib_path = Ok ds ->
  reduced_field ds = (out, Ok (lat, lon, field)) ->
  compute_thresholds field = (q2, q5, q20) ->
  snd (grib_to_geojson boundary open_dataset grib_path) = Ok fc ->
  In f (features fc) ->
  exists i j lon_left lon_right lat_top lat_bottom q k,
    In (i, j) (cells lat lon) /\
    nth_error lon j = Some lon_left /\
    nth_error lon (j + 1) = Some lon_right /\
    nth_error lat i = Some lat_top /\
    nth_error lat (i + 1) = Some lat_bottom /\
    geometry f =
      {| geometry_type := "Polygon";
         coordinates :=
           [[ [lon_left; lat_top];
              [lon_right; lat_top];
              [lon_right; lat_bottom];
              [lon_left; lat_bottom];
              [lon_left; lat_top] ]] |} /\
    item field [i; j] = Finite q /\
    discharge (properties f) = round2 (Finite q) /\
    discharge (properties f) = Finite (Qred (inject_Z k / 100)) /\
    Qabs (inject_Z k / 100 - q) <= 1 # 200.
Proof.
  intros Hopen Hred Hthr Hrun Hf.
  destruct (grib_to_geojson_features _ _ _ _ _ _ _ _ _ _ _ _
              Hopen Hred Hthr Hrun) as [-> Hitems].
  simpl in Hf. apply in_flat_map in Hf. destruct Hf as ([i j] & Hc & Hf).
  destruct (cell_coordinates lat lon i j Hc) as (ll & lr & lt & lb & H1 & H2 & H3 & H4).
  unfold cell_features in Hf. simpl in Hf.
  rewrite (cell_body_eval boundary lat lon field q2 q5 q20 i j _ ll lr lt lb
             (Hitems i j Hc) H1 H2 H3 H4) in Hf.
  simpl in Hf.
  destruct (classify_point (item field [i; j]) q2 q5 q20)
    as [[level|] color] eqn:Hcl; [|contradiction].
  destruct (inside_boundary boundary ll lr lt lb); [|contradiction].
  destruct Hf as [<-|[]].
  pose proof (classify_point_finite _ _ _ _ _ _ Hcl) as Hfin.
  destruct (item field [i; j]) as [q| | |] eqn:Hq; try discriminate.
  destruct (round2_nearest q) as (k & Hk1 & Hk2).
  exists i, j, ll, lr, lt, lb, q, k. repeat split; trivial.
Qed.

(** C4: on the example field the thresholds are the 55th, 85th and 98th
    percentiles of the four values (2.125, 7.95 and 11.46), and the run
    without a boundary returns one feature: the ring of the single cell,
    the discharge 0.5 of the node (0, 0) and, 0.5 being below q2, the tier
    "1" in gray. *)
Theorem example_run (grib_path : string) :
  let positive := [Finite 0.5; Finite 12.0; Finite 3.0; Finite 0.1] in
  positive_values (array2d example_rows) = positive /\
  compute_thresholds (array2d example_rows) =
    (np_quantile positive 0.55,
     np_quantile positive 0.85,
     np_quantile positive 0.98) /\
  compute_thresholds (array2d example_rows) =
    (Finite (17 # 8), Finite (159 # 20), Finite (573 # 50)) /\
  classify_point (Finite 0.5)
    (Finite (17 # 8)) (Finite (159 # 20)) (Finite (573 # 50)) =
    (Some "1", Some "gray") /\
  grib_to_geojson None (fun _ => Ok example_cube) grib_path =
    ([ProcessOpening grib_path;
      InfoUsingVariable "dis24";
      InfoThresholds (Finite (17 # 8)) (Finite (159 # 20)) (Finite (573 # 50));
      DoneGeoJSON 1],
     Ok {| collection_type := "FeatureCollection";
           features :=
             [{| feature_type := "Feature";
                 geometry :=
                   {| geometry_type := "Polygon";
                      coordinates :=
                        [[ [Finite 107.0; Finite 15.0];
                           [Finite 107.1; Finite 15.0];
                           [Finite 107.1; Finite 14.9];
                           [Finite 107.0; Finite 14.9];
                           [Finite 107.0; Finite 15.0] ]] |};
                 properties :=
                   {| discharge := Finite (1 # 2);
                      risk_level := Some "1";
                      risk_color := Some "gray" |} |}] |}).
Proof. repeat split; vm_compute; reflexivity. Qed.

(** ** Variable selection *)

Lemma mem_In name names : mem name names = true <-> In name names.
Proof.
  unfold mem. rewrite existsb_exists. split.
  - intros (k & Hk & E). apply String.eqb_eq in E. now subst.
  - intros H. exists name. split; trivial. apply String.eqb_refl.
Qed.

Lemma lookup_present {A} name (l : list (string * A)) :
  In name (map fst l) -> exists v, lookup name l = Some v.
Proof.
  induction l as [|[k v] l IH]; simpl; [contradiction|].
  intros H. destruct (String.eqb name k) eqn:E; [now exists v|].
  destruct H as [H|H]; [|auto].
  subst k. rewrite String.eqb_refl in E. discriminate.
Qed.

Lemma first_present_found names ds pre c post :
  names = pre ++ c :: post ->
  (forall x, In x pre -> ~ In x (map fst (data_vars ds))) ->
  In c (map fst (data_vars ds)) ->
  first_present names ds = Some c.
Proof.
  intros -> Hpre Hc. induction pre as [|x pre IH]; simpl.
  - apply mem_In in Hc. now rewrite Hc.
  - destruct (mem x (map fst (data_vars ds))) eqn:E.
    + apply mem_In in E. exfalso. apply (Hpre x); simpl; auto.
    + apply IH. intros y Hy. apply Hpre. simpl. auto.
Qed.

Lemma first_present_absent names ds :
  (forall c, In c names -> ~ In c (map fst (data_vars ds))) ->
  first_present names ds = None.
Proof.
  induction names as [|x names IH]; simpl; intros H; trivial.
  destruct (mem x (map fst (data_vars ds))) eqn:E.
  - apply mem_In in E. exfalso. apply (H x); auto.
  - apply IH. intros c Hc. apply H. auto.
Qed.

Lemma first_present_declared names ds c :
  first_present names ds = Some c -> In c (map fst (data_vars ds)).
Proof.
  induction names as [|x names IH]; simpl; [discriminate|].
  destruct (mem x (map fst (data_vars ds))) eqn:E; auto.
  intros [= <-]. now apply mem_In.
Qed.

Lemma mem_keys {A} (name : string) (l : list (string * A)) :
  mem name (map fst l) =
    match lookup name l with
    | Some _ => true
    | None => false
    end.
Proof.
  induction l as [|[k v] l IH]; simpl; trivial.
  destruct (String.eqb name k); simpl; trivial.
Qed.

(** C9: the candidates are "river_discharge_in_the_last_24_hours", "dis24"
    and "dis", in this order, and [choose_variable] returns the variable
    of the first of them that the cube declares, whatever the order of
    declaration; when the cube declares none of them it returns the first
    declared variable and prints the fallback warning; and it raises
    exactly when the cube declares no variable. *)
Theorem choose_variable_spec (ds : Dataset) :
  candidates = ["river_discharge_in_the_last_24_hours"; "dis24"; "dis"] /\
  (forall var,
      lookup "river_discharge_in_the_last_24_hours" (data_vars ds) = Some var ->
      choose_variable ds =
        ([InfoUsingVariable "river_discharge_in_the_last_24_hours"], Ok var)) /\
  (forall var,
      lookup "river_discharge_in_the_last_24_hours" (data_vars ds) = None ->
      lookup "dis24" (data_vars ds) = Some var ->
      choose_variable ds = ([InfoUsingVariable "dis24"], Ok var)) /\
  (forall var,
      lookup "river_discharge_in_the_last_24_hours" (data_vars ds) = None ->
      lookup "dis24" (data_vars ds) = None ->
      lookup "dis" (data_vars ds) = Some var ->
      choose_variable ds = ([InfoUsingVariable "dis"], Ok var)) /\
  (forall name var rest,
      lookup "river_discharge_in_the_last_24_hours" (data_vars ds) = None ->
      lookup "dis24" (data_vars ds) = None ->
      lookup "dis" (data_vars ds) = None ->
      data_vars ds = (name, var) :: rest ->
      choose_variable ds = ([WarnFallbackVariable name], Ok var)) /\
  (forall pre c post,
      candidates = pre ++ c :: post ->
      (forall x, In x pre -> ~ In x (map fst (data_vars ds))) ->
      In c (map fst (data_vars ds)) ->
      exists var,
        lookup c (data_vars ds) = Some var /\
        choose_variable ds = ([InfoUsingVariable c], Ok var)) /\
  ((exists e, snd (choose_variable ds) = Raise e) <-> data_vars ds = []).
Proof.
  split; [reflexivity|].
  split; [|split; [|split; [|split; [|split]]]].
  - intros var H. unfold choose_variable, ds_getitem. simpl.
    rewrite mem_keys, H. simpl. now rewrite H.
  - intros var H1 H2. unfold choose_variable, ds_getitem. simpl.
    rewrite !mem_keys, H1, H2. simpl. now rewrite H2.
  - intros var H1 H2 H3. unfold choose_variable, ds_getitem. simpl.
    rewrite !mem_keys, H1, H2, H3. simpl. now rewrite H3.
  - intros name var rest H1 H2 H3 Hvars.
    unfold choose_variable, ds_getitem. simpl.
    rewrite !mem_keys, H1, H2, H3, Hvars. simpl.
    now rewrite String.eqb_refl.
  - intros pre c post Hsplit Hpre Hc.
    destruct (lookup_present c (data_vars ds) Hc) as [var Hvar].
    exists var. split; trivial.
    unfold choose_variable, ds_getitem.
    rewrite (first_present_found _ ds pre c post Hsplit Hpre Hc).
    now rewrite Hvar.
  - unfold choose_variable, ds_getitem. split.
    + intros [e He].
      destruct (first_present candidates ds) as [c|] eqn:E.
      * apply first_present_declared in E.
        destruct (lookup_present c (data_vars ds) E) as [var Hvar].
        rewrite Hvar in He. discriminate.
      * destruct (data_vars ds) as [|[name var] rest]; trivial.
        simpl in He. rewrite String.eqb_refl in He. discriminate.
    + intros E. rewrite first_present_absent.
      * rewrite E. simpl. now exists IndexError.
      * intros c _. rewrite E. simpl. tauto.
Qed.

(** ** Clipping *)

Lemma in_interior_off_boundary p poly :
  in_interior p poly = true -> on_boundary p poly = false.
Proof.
  unfold in_interior, on_boundary. intros H.
  apply andb_true_iff in H. destruct H as [H Hholes].
  apply andb_true_iff in H. destruct H as [Hext _].
  apply negb_true_iff in Hext. rewrite Hext. simpl.
  induction (interiors poly) as [|hole holes IH]; simpl in *; trivial.
  apply andb_true_iff in Hholes. destruct Hholes as [Hh Hrest].
  apply andb_true_iff in Hh. destruct Hh as [Hh _].
  apply negb_true_iff in Hh. rewrite Hh. simpl. now apply IH.
Qed.

(** The center of two finite coordinates is their arithmetic mean. *)
Lemma midpoint_mean a b :
  exists m, midpoint (Finite a) (Finite b) = Finite m /\ m == (a + b) / 2.
Proof.
  eexists. split; [reflexivity|].
  rewrite !Qred_correct. field.
Qed.

Lemma contains_off_boundary poly x y :
  contains poly (Finite x) (Finite y) = true ->
  on_boundary (x, y) poly = false.
Proof. apply in_interior_off_boundary. Qed.

(** C1, as the source has it: with a boundary configured a cell adds its
    feature exactly when its node value is classified and the center of its
    bounding box, the arithmetic mean of its longitudes and of its
    latitudes, lies in the interior of the boundary polygon; a center on
    a ring of the boundary is not contained. *)
Theorem clip_by_interior boundary open_dataset grib_path ds out
    lat lon field q2 q5 q20 fc :
  open_dataset grib_path = Ok ds ->
  reduced_field ds = (out, Ok (lat, lon, field)) ->
  compute_thresholds field = (q2, q5, q20) ->
  snd (grib_to_geojson (Some boundary) open_dataset grib_path) = Ok fc ->
  features fc =
    flat_map (cell_features (Some boundary) lat lon field q2 q5 q20)
      (cells lat lon) /\
  clipping_rule contains boundary lat lon field q2 q5 q20 /\
  (forall a b c d, exists x y,
      midpoint (Finite a) (Finite b) = Finite x /\ x == (a + b) / 2 /\
      midpoint (Finite c) (Finite d) = Finite y /\ y == (c + d) / 2 /\
      (on_boundary (x, y) boundary = true ->
       contains boundary (Finite x) (Finite y) = false)).
Proof.
  intros Hopen Hred Hthr Hrun.
  destruct (grib_to_geojson_features _ _ _ _ _ _ _ _ _ _ _ _
              Hopen Hred Hthr Hrun) as [-> Hitems].
  split; [reflexivity|]. split.
  - intros i j ll lr lt lb Hc H1 H2 H3 H4.
    unfold cell_features. simpl.
    rewrite (cell_body_eval (Some boundary) lat lon field q2 q5 q20 i j _
               ll lr lt lb (Hitems i j Hc) H1 H2 H3 H4).
    simpl.
    destruct (classify_point (item field [i; j]) q2 q5 q20)
      as [[level|] color]; simpl.
    + destruct (contains boundary (midpoint ll lr) (midpoint lt lb)).
      * split; [intros _; split; congruence | discriminate].
      * split; [congruence | intros [_ H]; discriminate].
    + split; [congruence | intros [H _]; congruence].
  - intros a b c d.
    destruct (midpoint_mean a b) as (x & Hx & Hxm).
    destruct (midpoint_mean c d) as (y & Hy & Hym).
    exists x, y. repeat split; trivial.
    intros Hon. destruct (contains boundary (Finite x) (Finite y)) eqn:E;
      trivial.
    apply contains_off_boundary in E. congruence.
Qed.

(** C1, as the specification words it, fails: on the square boundary the
    cell with the center (2, 1), which lies on the eastern edge and is
    inside under the boundary-inclusive test, has a classified node value
    and yet the run returns no feature. *)
Lemma boundary_center_dropped :
  nth_error edge_lon 0 = Some (Finite 1.5) /\
  nth_error edge_lon 1 = Some (Finite 2.5) /\
  nth_error edge_lat 0 = Some (Finite 1.5) /\
  nth_error edge_lat 1 = Some (Finite 0.5) /\
  midpoint (Finite 1.5) (Finite 2.5) = Finite 2 /\
  midpoint (Finite 1.5) (Finite 0.5) = Finite 1 /\
  on_boundary (2, 1) square = true /\
  contains_inclusive square (Finite 2) (Finite 1) = true /\
  compute_thresholds (array2d edge_rows) = (Finite 1, Finite 1, Finite 1) /\
  classify_point (item (array2d edge_rows) [0; 0]%nat)
    (Finite 1) (Finite 1) (Finite 1) = (Some "20", Some "purple") /\
  snd (grib_to_geojson (Some square) (fun _ => Ok edge_cube) "forecast.grib")
    = Ok (collection []) /\
  ~ clipping_rule contains_inclusive square edge_lat edge_lon
      (array2d edge_rows) (Finite 1) (Finite 1) (Finite 1).
Proof.
  repeat split; try (vm_compute; reflexivity).
  intros H.
  specialize (H 0%nat 0%nat (Finite 1.5) (Finite 2.5) (Finite 1.5) (Finite 0.5)).
  destruct H as [_ H]; try (simpl; auto; fail).
  apply H; [|reflexivity].
  split; [vm_compute; discriminate | vm_compute; reflexivity].
Qed.

(** ** The theorems at the example cubes *)

Lemma short_axis_no_features_witness :
  cells [Finite 15.0] example_lon = [] /\
  snd (grib_to_geojson (Some square) (fun _ => Ok row_cube) "forecast.grib")
    = Ok (collection []).
Proof.
  apply (short_axis_no_features (Some square) (fun _ => Ok row_cube)
           "forecast.grib" row_cube [InfoUsingVariable "dis24"]
           [Finite 15.0] example_lon
           (array2d [[Finite 0.5; Finite 12.0]])).
  - reflexivity.
  - reflexivity.
  - reflexivity.
  - left. simpl. lia.
Defined.

Lemma unclassified_cell_omitted_witness :
  cell_features None injected_lat injected_lon (array2d injected_rows)
    (Finite 7) (Finite 7) (Finite 7) (1%nat, 0%nat) = [] /\
  features (collection [injected_feature]) =
    flat_map
      (cell_features None injected_lat injected_lon (array2d injected_rows)
         (Finite 7) (Finite 7) (Finite 7))
      (filter (fun c => negb (cell_eqb c (1%nat, 0%nat)))
         (cells injected_lat injected_lon)).
Proof.
  apply (unclassified_cell_omitted None (fun _ => Ok injected_cube)
           "forecast.grib" injected_cube [InfoUsingVariable "dis24"]
           injected_lat injected_lon (array2d injected_rows)
           (Finite 7) (Finite 7) (Finite 7)
           (collection [injected_feature]) 1 0).
  - reflexivity.
  - reflexivity.
  - vm_compute. reflexivity.
  - vm_compute. reflexivity.
  - vm_compute. tauto.
  - left. reflexivity.
Defined.

Lemma feature_of_cell_witness :
  exists i j lon_left lon_right lat_top lat_bottom q k,
    In (i, j) (cells example_lat example_lon) /\
    nth_error example_lon j = Some lon_left /\
    nth_error example_lon (j + 1) = Some lon_right /\
    nth_error example_lat i = Some lat_top /\
    nth_error example_lat (i + 1) = Some lat_bottom /\
    geometry example_feature =
      {| geometry_type := "Polygon";
         coordinates :=
           [[ [lon_left; lat_top];
              [lon_right; lat_top];
              [lon_right; lat_bottom];
              [lon_left; lat_bottom];
              [lon_left; lat_top] ]] |} /\
    item (array2d example_rows) [i; j] = Finite q /\
    discharge (properties example_feature) = round2 (Finite q) /\
    discharge (properties example_feature)
      = Finite (Qred (inject_Z k / 100)) /\
    Qabs (inject_Z k / 100 - q) <= 1 # 200.
Proof.
  apply (feature_of_cell None (fun _ => Ok example_cube)
           "forecast.grib" example_cube [InfoUsingVariable "dis24"]
           example_lat example_lon (array2d example_rows)
           (Finite (17 # 8)) (Finite (159 # 20)) (Finite (573 # 50))
           (collection [example_feature]) example_feature).
  - reflexivity.
  - reflexivity.
  - vm_compute. reflexivity.
  - vm_compute. reflexivity.
  - left. reflexivity.
Defined.

Lemma clip_by_interior_witness :
  features (collection []) =
    flat_map
      (cell_features (Some square) edge_lat edge_lon (array2d edge_rows)
         (Finite 1) (Finite 1) (Finite 1))
      (cells edge_lat edge_lon) /\
  clipping_rule contains square edge_lat edge_lon (array2d edge_rows)
    (Finite 1) (Finite 1) (Finite 1) /\
  (forall a b c d, exists x y,
      midpoint (Finite a) (Finite b) = Finite x /\ x == (a + b) / 2 /\
      midpoint (Finite c) (Finite d) = Finite y /\ y == (c + d) / 2 /\
      (on_boundary (x, y) square = true ->
       contains square (Finite x) (Finite y) = false)).
Proof.
  apply (clip_by_interior square (fun _ => Ok edge_cube) "forecast.grib"
           edge_cube [InfoUsingVariable "dis24"]
           edge_lat edge_lon (array2d edge_rows)
           (Finite 1) (Finite 1) (Finite 1) (collection [])).
  - reflexivity.
  - reflexivity.
  - vm_compute. reflexivity.
  - vm_compute. reflexivity.
Defined.

Lemma choose_variable_spec_witness :
  choose_variable two_names_cube =
    ([InfoUsingVariable "dis24"], Ok (forecast_var 1)).
Proof.
  apply (proj1 (proj2 (proj2 (choose_variable_spec two_names_cube)))
           (forecast_var 1)).
  - reflexivity.
  - reflexivity.
Defined.

(** * Further properties of the pipeline *)

(** ** Thresholds and tiers *)

Lemma Fle_le_finite lo a r :
  Fle lo (Finite a) -> a <= r -> Fle lo (Finite r).
Proof.
  intros H Har. inversion H; subst; constructor. lra.
Qed.

Lemma Fle_finite_le r b hi :
  r <= b -> Fle (Finite b) hi -> Fle (Finite r) hi.
Proof.
  intros Hrb H. inversion H; subst; constructor. lra.
Qed.

Lemma np_quantile_between (arr : list pyfloat) (p : Q) (lo hi : pyfloat) :
  arr <> [] -> Forall posfin arr -> 0 <= p -> p <= 1 ->
  Forall (fun x => Fle lo x /\ Fle x hi) arr ->
  exists r, np_quantile arr p = Finite r /\
            Fle lo (Finite r) /\ Fle (Finite r) hi.
Proof.
  intros Hne Hpos Hp0 Hp1 Hrange.
  assert (Hn : (0 < length arr)%nat).
  { destruct arr; [congruence | simpl; lia]. }
  destruct (np_quantile_spec arr p Hne Hpos Hp0 Hp1)
    as (a & b & r & Ha & Hb & Hr & Ha0 & Hab & Hreq & Hlo).
  destruct (virtual_index_range _ p Hn Hp0 Hp1) as (_ & _ & _ & Hg0 & Hg1).
  pose proof (np_sort_Forall _ arr Hrange) as Hs.
  rewrite Forall_forall in Hs.
  assert (Hina : In (Finite a) (np_sort arr)).
  { rewrite <- Ha. apply nth_In. rewrite np_sort_length. exact Hlo. }
  assert (Hinb : In (Finite b) (np_sort arr)).
  { rewrite <- Hb. apply nth_In. rewrite np_sort_length. lia. }
  exists r. split; trivial. split.
  - apply (Fle_le_finite lo a r); [apply Hs, Hina | nra].
  - apply (Fle_finite_le r b hi); [nra | apply Hs, Hinb].
Qed.

(** X1: when the field has a finite positive value, each of the three
    thresholds lies between any lower and any upper bound of its finite
    positive values, so between the smallest and the largest of them. *)
Theorem thresholds_within_range (field : ndarray) (lo hi q2 q5 q20 : pyfloat) :
  positive_values field <> [] ->
  (forall x, In x (positive_values field) -> Fle lo x /\ Fle x hi) ->
  compute_thresholds field = (q2, q5, q20) ->
  (Fle lo q2 /\ Fle q2 hi) /\
  (Fle lo q5 /\ Fle q5 hi) /\
  (Fle lo q20 /\ Fle q20 hi).
Proof.
  intros Hne Hrange Hthr.
  rewrite (compute_thresholds_nonempty field Hne) in Hthr.
  injection Hthr as <- <- <-.
  pose proof (positive_values_posfin field) as Hpos.
  apply Forall_forall in Hrange.
  destruct (np_quantile_between _ 0.55 lo hi Hne Hpos) as (r2 & -> & H2);
    try discriminate; trivial.
  destruct (np_quantile_between _ 0.85 lo hi Hne Hpos) as (r5 & -> & H5);
    try discriminate; trivial.
  destruct (np_quantile_between _ 0.98 lo hi Hne Hpos) as (r20 & -> & H20);
    try discriminate; trivial.
  tauto.
Qed.

Lemma positive_values_In (field : ndarray) (v : pyfloat) :
  In v (positive_values field) -> isfinite v = true /\ fle v fzero = false.
Proof.
  intros H. pose proof (positive_values_posfin field) as Hpos.
  rewrite Forall_forall in Hpos. apply Hpos in H.
  destruct v; simpl in H; try contradiction. split; trivial.
  simpl. destruct (Qle_bool q 0) eqn:E; trivial.
  apply Qle_bool_iff in E. exfalso. now apply (Qlt_not_le 0 q).
Qed.

(** X2: with the thresholds of a field, the largest finite positive value
    of that field is classified in the highest tier. *)
Theorem largest_value_top_tier (field : ndarray) (v q2 q5 q20 : pyfloat) :
  In v (positive_values field) ->
  (forall x, In x (positive_values field) -> Fle x v) ->
  compute_thresholds field = (q2, q5, q20) ->
  classify_point v q2 q5 q20 = (Some "20", Some "purple").
Proof.
  intros Hin Hmax Hthr.
  assert (Hne : positive_values field <> []).
  { intros E. rewrite E in Hin. contradiction. }
  rewrite (compute_thresholds_nonempty field Hne) in Hthr.
  injection Hthr as <- <- <-.
  pose proof (positive_values_posfin field) as Hpos.
  destruct (np_quantile_between _ 0.98 NegInf v Hne Hpos) as (r & Hr & _ & H);
    try discriminate.
  { apply Forall_forall. intros x Hx. split; [|now apply Hmax].
    rewrite Forall_forall in Hpos. apply Hpos in Hx.
    destruct x; simpl in Hx; try contradiction. constructor. }
  destruct (positive_values_In field v Hin) as [Hfin H0].
  apply fle_iff in H.
  unfold classify_point, fge. rewrite Hfin, H0, Hr. cbn [negb orb].
  now rewrite H.
Qed.

Lemma fge_mono v w q :
  Fle v w -> fge v q = true -> fge w q = true.
Proof.
  unfold fge. intros Hvw H. apply fle_iff in H. apply fle_iff.
  eapply Fle_trans; eassumption.
Qed.

Lemma fle_zero_mono v w :
  Fle v w -> fle w fzero = true -> fle v fzero = true.
Proof.
  intros Hvw H. apply fle_iff in H. apply fle_iff.
  eapply Fle_trans; eassumption.
Qed.

(** X3: the tier does not decrease with the discharge: of two values, the
    larger one finite, the larger is classified at least as high as the
    smaller, whatever the thresholds are. *)
Theorem classify_point_monotone (v w q2 q5 q20 : pyfloat) :
  Fle v w -> isfinite w = true ->
  (severity (classify_point v q2 q5 q20)
   <= severity (classify_point w q2 q5 q20))%nat.
Proof.
  intros Hvw Hw. unfold classify_point. rewrite Hw. simpl.
  destruct (negb (isfinite v) || fle v fzero) eqn:Hv; [apply Nat.le_0_l|].
  apply orb_false_iff in Hv. destruct Hv as [_ Hv0].
  destruct (fle w fzero) eqn:Hw0.
  { rewrite (fle_zero_mono v w Hvw Hw0) in Hv0. discriminate. }
  pose proof (fge_mono v w q20 Hvw) as M20.
  pose proof (fge_mono v w q5 Hvw) as M5.
  pose proof (fge_mono v w q2 Hvw) as M2.
  destruct (fge v q20); [rewrite (M20 eq_refl); unfold severity; simpl; lia|].
  destruct (fge v q5).
  { rewrite (M5 eq_refl). destruct (fge w q20); unfold severity; simpl; lia. }
  destruct (fge v q2).
  { rewrite (M2 eq_refl).
    destruct (fge w q20); [unfold severity; simpl; lia|]. destruct (fge w q5); unfold severity; simpl; lia. }
  destruct (fge w q20); [unfold severity; simpl; lia|].
  destruct (fge w q5); [unfold severity; simpl; lia|].
  destruct (fge w q2); unfold severity; simpl; lia.
Qed.

(** ** Runs of the loops *)

Lemma for_each_succeeds {X S} (body : X -> S -> result S) xs :
  (forall x, In x xs -> forall s, exists s', body x s = Ok s') ->
  forall s, exists s', for_each xs body s = Ok s'.
Proof.
  induction xs as [|x xs IH]; simpl; intros H s.
  - now exists s.
  - destruct (H x (or_introl eq_refl) s) as [s' ->]. simpl.
    apply IH. intros y Hy. apply H. now right.
Qed.

Lemma for_each_ext {X S} (body body' : X -> S -> result S) xs :
  (forall x, In x xs -> forall s, body x s = body' x s) ->
  forall s, for_each xs body s = for_each xs body' s.
Proof.
  induction xs as [|x xs IH]; simpl; intros H s; trivial.
  rewrite (H x (or_introl eq_refl) s).
  destruct (body' x s) as [s'|e]; simpl; trivial.
  apply IH. intros y Hy. apply H. now right.
Qed.

Lemma getitem2_ok_iff a r c i j :
  shape a = [r; c] ->
  ((exists v, getitem2 a i j = Ok v) <-> (i < r /\ j < c)%nat).
Proof.
  intros Hs. unfold getitem2. rewrite Hs. split.
  - intros [v H].
    destruct ((i <? r)%nat && (j <? c)%nat) eqn:E; [|discriminate].
    apply andb_true_iff in E. now rewrite !Nat.ltb_lt in E.
  - intros [Hi Hj]. apply Nat.ltb_lt in Hi, Hj. rewrite Hi, Hj. simpl.
    now eexists.
Qed.

Lemma cell_body_succeeds boundary lat lon field q2 q5 q20 i j v acc :
  In (i, j) (cells lat lon) ->
  getitem2 field i j = Ok v ->
  exists acc', cell_body boundary lat lon field q2 q5 q20 i j acc = Ok acc'.
Proof.
  intros Hc Hv.
  destruct (cell_coordinates lat lon i j Hc)
    as (ll & lr & lt & lb & H1 & H2 & H3 & H4).
  rewrite (cell_body_appends boundary lat lon field q2 q5 q20 i j acc).
  rewrite (cell_body_eval boundary lat lon field q2 q5 q20 i j v ll lr lt lb
             Hv H1 H2 H3 H4).
  simpl. now eexists.
Qed.

(** The loops end without an error when every cell they visit lies in
    the field. *)
Lemma build_features_succeeds boundary lat lon field q2 q5 q20 :
  (forall i j, In (i, j) (cells lat lon) ->
     exists v, getitem2 field i j = Ok v) ->
  build_features boundary lat lon field q2 q5 q20 =
    Ok (flat_map (cell_features boundary lat lon field q2 q5 q20)
          (cells lat lon)).
Proof.
  intros Hall.
  destruct (for_each_succeeds
              (fun i features =>
                 for_each (range (Z.of_nat (length lon) - 1))
                   (fun j features =>
                      cell_body boundary lat lon field q2 q5 q20 i j features)
                   features)
              (range (Z.of_nat (length lat) - 1))) with (s := @nil Feature)
    as [fs Hfs].
  { intros i Hi s. apply for_each_succeeds. intros j Hj s'.
    assert (Hc : In (i, j) (cells lat lon))
      by (unfold cells; now apply in_prod).
    destruct (Hall i j Hc) as [v Hv].
    eapply cell_body_succeeds; eassumption. }
  change (build_features boundary lat lon field q2 q5 q20 = Ok fs) in Hfs.
  rewrite Hfs. f_equal.
  now apply build_features_cells in Hfs.
Qed.

Lemma cell_features_clipped boundary lat lon field q2 q5 q20 c :
  cell_features (Some boundary) lat lon field q2 q5 q20 c = [] \/
  cell_features (Some boundary) lat lon field q2 q5 q20 c =
    cell_features None lat lon field q2 q5 q20 c.
Proof.
  unfold cell_features, cell_body.
  destruct (getitem2 field (fst c) (snd c)); simpl; auto.
  destruct (classify_point _ q2 q5 q20) as [[level|] color]; simpl; auto.
  destruct (getitem lon (snd c)); simpl; auto.
  destruct (getitem lon (snd c + 1)); simpl; auto.
  destruct (getitem lat (fst c)); simpl; auto.
  destruct (getitem lat (fst c + 1)); simpl; auto.
  destruct (negb (contains boundary _ _)); simpl; auto.
Qed.

Lemma cell_features_at_most_one boundary lat lon field q2 q5 q20 c :
  (length (cell_features boundary lat lon field q2 q5 q20 c) <= 1)%nat.
Proof.
  unfold cell_features, cell_body.
  destruct (getitem2 field (fst c) (snd c)); simpl; auto.
  destruct (classify_point _ q2 q5 q20) as [[level|] color]; simpl; auto.
  destruct (getitem lon (snd c)); simpl; auto.
  destruct (getitem lon (snd c + 1)); simpl; auto.
  destruct (getitem lat (fst c)); simpl; auto.
  destruct (getitem lat (fst c + 1)); simpl; auto.
  match goal with |- context [if ?b then _ else _] => destruct b end;
    simpl; auto.
Qed.

Lemma flat_map_length_le {X A} (f : X -> list A) xs :
  (forall x, (length (f x) <= 1)%nat) ->
  (length (flat_map f xs) <= length xs)%nat.
Proof.
  intros H. induction xs as [|x xs IH]; simpl; trivial.
  rewrite length_app. specialize (H x). lia.
Qed.

Lemma flat_map_filter_length {X A} (f : X -> list A) keep xs :
  (length (flat_map f (filter keep xs)) <= length (flat_map f xs))%nat.
Proof.
  induction xs as [|x xs IH]; simpl; trivial.
  destruct (keep x); simpl; rewrite !length_app; lia.
Qed.

Lemma run_two_dimensional boundary open_dataset grib_path ds out
    lat lon field fc :
  open_dataset grib_path = Ok ds ->
  reduced_field ds = (out, Ok (lat, lon, field)) ->
  snd (grib_to_geojson boundary open_dataset grib_path) = Ok fc ->
  ndim field = 2%nat.
Proof.
  intros Hopen Hred Hrun.
  destruct (compute_thresholds field) as [[q2 q5] q20] eqn:Hthr.
  rewrite (grib_to_geojson_run _ _ _ _ _ _ _ _ _ _ _ Hopen Hred Hthr) in Hrun.
  destruct (Nat.eqb_spec (ndim field) 2); trivial. discriminate.
Qed.

(** X4: the collection has at most one feature per cell, so at most
    (n_lat - 1) * (n_lon - 1) features. *)
Theorem feature_count_bound boundary open_dataset grib_path ds out
    lat lon field fc :
  open_dataset grib_path = Ok ds ->
  reduced_field ds = (out, Ok (lat, lon, field)) ->
  snd (grib_to_geojson boundary open_dataset grib_path) = Ok fc ->
  (length (features fc) <= (length lat - 1) * (length lon - 1))%nat.
Proof.
  intros Hopen Hred Hrun.
  destruct (compute_thresholds field) as [[q2 q5] q20] eqn:Hthr.
  destruct (grib_to_geojson_features _ _ _ _ _ _ _ _ _ _ _ _
              Hopen Hred Hthr Hrun) as [-> _].
  simpl.
  eapply Nat.le_trans;
    [apply flat_map_length_le, cell_features_at_most_one|].
  unfold cells, range. rewrite length_prod, !length_seq.
  apply Nat.mul_le_mono; lia.
Qed.

Lemma clipped_flat_map boundary lat lon field q2 q5 q20 cs :
  flat_map (cell_features (Some boundary) lat lon field q2 q5 q20) cs =
  flat_map (cell_features None lat lon field q2 q5 q20)
    (filter (fun c =>
               match cell_features (Some boundary) lat lon field q2 q5 q20 c
               with
               | [] => false
               | _ :: _ => true
               end) cs).
Proof.
  induction cs as [|c cs IH]; simpl; trivial.
  destruct (cell_features_clipped boundary lat lon field q2 q5 q20 c)
    as [H|H].
  - rewrite H. simpl. exact IH.
  - destruct (cell_features (Some boundary) lat lon field q2 q5 q20 c)
      eqn:Hc.
    + simpl. exact IH.
    + simpl. rewrite <- H, IH. reflexivity.
Qed.

(** X5: clipping only removes features.  When the run with a boundary
    succeeds, so does the run without one, and the clipped collection is
    the unclipped one restricted to a subset of the cells, in the same
    order; it is never longer. *)
Theorem clipping_only_removes boundary open_dataset grib_path ds out
    lat lon field q2 q5 q20 fc :
  open_dataset grib_path = Ok ds ->
  reduced_field ds = (out, Ok (lat, lon, field)) ->
  compute_thresholds field = (q2, q5, q20) ->
  snd (grib_to_geojson (Some boundary) open_dataset grib_path) = Ok fc ->
  let unclipped := cell_features None lat lon field q2 q5 q20 in
  snd (grib_to_geojson None open_dataset grib_path) =
    Ok (collection (flat_map unclipped (cells lat lon))) /\
  (exists keep : nat * nat -> bool,
      features fc = flat_map unclipped (filter keep (cells lat lon))) /\
  (length (features fc) <= length (flat_map unclipped (cells lat lon)))%nat.
Proof.
  intros Hopen Hred Hthr Hrun unclipped.
  pose proof (run_two_dimensional _ _ _ _ _ _ _ _ _ Hopen Hred Hrun) as Hdim.
  destruct (grib_to_geojson_features _ _ _ _ _ _ _ _ _ _ _ _
              Hopen Hred Hthr Hrun) as [-> Hitems].
  pose proof (clipped_flat_map boundary lat lon field q2 q5 q20
                (cells lat lon)) as E.
  fold unclipped in E.
  set (keep := fun c : nat * nat => _) in E.
  split; [|split].
  - rewrite (grib_to_geojson_run None _ _ _ _ _ _ _ _ _ _ Hopen Hred Hthr).
    rewrite Hdim. simpl.
    rewrite build_features_succeeds; trivial.
    intros i j Hc. eexists. now apply Hitems.
  - exists keep. exact E.
  - simpl. rewrite E. apply flat_map_filter_length.
Qed.

Lemma flat_map_nil {X A} (f : X -> list A) xs :
  (forall x, In x xs -> f x = []) -> flat_map f xs = [].
Proof.
  induction xs as [|x xs IH]; simpl; intros H; trivial.
  rewrite (H x), IH; auto.
Qed.

Lemma ndindex_2d r c i j :
  (i < r)%nat -> (j < c)%nat -> In [i; j] (ndindex [r; c]).
Proof.
  intros Hi Hj. simpl. apply in_flat_map. exists i. split.
  - apply in_seq. lia.
  - apply in_map. apply in_flat_map. exists j. split.
    + apply in_seq. lia.
    + now left.
Qed.

Lemma getitem2_ravel a i j v :
  getitem2 a i j = Ok v -> In v (ravel a).
Proof.
  unfold getitem2, ravel.
  destruct (shape a) as [|r [|c [|? ?]]]; try discriminate.
  destruct ((i <? r)%nat && (j <? c)%nat) eqn:E; [|discriminate].
  intros [= <-]. apply andb_true_iff in E. rewrite !Nat.ltb_lt in E.
  apply in_map. now apply ndindex_2d.
Qed.

Lemma masked_out v :
  isfinite v && fgt v fzero = false ->
  isfinite v = false \/ Fle v fzero.
Proof.
  destruct v; simpl; auto. intros H. right. constructor.
  apply negb_false_iff in H. now apply Qle_bool_iff.
Qed.

(** X6: a field without a finite positive value gives the empty
    collection: the default thresholds classify nothing. *)
Theorem no_positive_value_no_feature boundary open_dataset grib_path ds out
    lat lon field fc :
  open_dataset grib_path = Ok ds ->
  reduced_field ds = (out, Ok (lat, lon, field)) ->
  positive_values field = [] ->
  snd (grib_to_geojson boundary open_dataset grib_path) = Ok fc ->
  features fc = [].
Proof.
  intros Hopen Hred Hpos Hrun.
  destruct (compute_thresholds field) as [[q2 q5] q20] eqn:Hthr.
  destruct (grib_to_geojson_features _ _ _ _ _ _ _ _ _ _ _ _
              Hopen Hred Hthr Hrun) as [-> Hitems].
  simpl. apply flat_map_nil. intros [i j] Hc.
  unfold cell_features. simpl.
  rewrite (cell_body_unclassified boundary lat lon field q2 q5 q20 i j _ []
             (Hitems i j Hc)); trivial.
  apply masked_out.
  destruct (isfinite (item field [i; j]) && fgt (item field [i; j]) fzero)
    eqn:E; trivial.
  assert (Hin : In (item field [i; j]) (positive_values field)).
  { unfold positive_values. apply filter_In. split; trivial.
    eapply getitem2_ravel. now apply Hitems. }
  rewrite Hpos in Hin. contradiction.
Qed.

(** X7: for a two-dimensional field of r rows and c columns the run
    succeeds when every visited cell (i, j) has i < r and j < c, and raises
    the index error as soon as one of them has not: a field smaller than
    its coordinate arrays is an error, a larger one is not. *)
Theorem index_error_iff boundary open_dataset grib_path ds out
    lat lon field r c :
  open_dataset grib_path = Ok ds ->
  reduced_field ds = (out, Ok (lat, lon, field)) ->
  shape field = [r; c] ->
  ((forall i j, In (i, j) (cells lat lon) -> (i < r /\ j < c)%nat) ->
   exists fc, snd (grib_to_geojson boundary open_dataset grib_path) = Ok fc)
  /\
  ((exists i j, In (i, j) (cells lat lon) /\ ~ (i < r /\ j < c)%nat) ->
   snd (grib_to_geojson boundary open_dataset grib_path) = Raise IndexError).
Proof.
  intros Hopen Hred Hshape.
  destruct (compute_thresholds field) as [[q2 q5] q20] eqn:Hthr.
  pose proof (grib_to_geojson_run boundary _ _ _ _ _ _ _ _ _ _
                Hopen Hred Hthr) as Hrun.
  assert (Hdim : ndim field = 2%nat) by (unfold ndim; now rewrite Hshape).
  rewrite Hdim in Hrun. simpl in Hrun. split.
  - intros Hall. rewrite Hrun, build_features_succeeds.
    + now eexists.
    + intros i j Hc. apply (getitem2_ok_iff field r c i j Hshape). auto.
  - intros (i & j & Hc & Hout). rewrite Hrun.
    destruct (build_features boundary lat lon field q2 q5 q20)
      as [fs|e] eqn:Hb.
    + exfalso. apply Hout.
      apply build_features_cells in Hb. destruct Hb as [_ Hb].
      destruct (Hb (i, j) Hc) as [l Hl]. simpl in Hl.
      apply cell_body_ok_item in Hl.
      apply (getitem2_ok_iff field r c i j Hshape).
      eexists. exact Hl.
    + apply build_features_raises in Hb. now subst e.
Qed.

Lemma classify_point_legend v q2 q5 q20 level color :
  classify_point v q2 q5 q20 = (Some level, color) ->
  In (Some level, color)
    [(Some "1", Some "gray"); (Some "2", Some "orange");
     (Some "5", Some "red"); (Some "20", Some "purple")] /\
  posfin v.
Proof.
  unfold classify_point.
  destruct v as [q| | |]; simpl; try discriminate.
  destruct (Qle_bool q 0) eqn:E; [discriminate|].
  assert (Hq : 0 < q).
  { apply Qnot_le_lt. intros H. apply Qle_bool_iff in H. congruence. }
  destruct (fge (Finite q) q20); [intros [= <- <-]; simpl; auto 6|].
  destruct (fge (Finite q) q5); [intros [= <- <-]; simpl; auto 6|].
  destruct (fge (Finite q) q2); intros [= <- <-]; simpl; auto 6.
Qed.

Lemma round_half_even_nonneg (x : Q) :
  0 <= x -> (0 <= round_half_even x)%Z.
Proof.
  intros Hx. unfold round_half_even.
  assert (Hf : (0 <= Qfloor x)%Z).
  { rewrite <- (Qfloor_Z 0). now apply Qfloor_resp_le. }
  destruct (x - inject_Z (Qfloor x) ?= 1 # 2); try lia.
  destruct (Z.even (Qfloor x)); lia.
Qed.

Lemma round2_nonneg (q : Q) :
  0 < q -> exists d, round2 (Finite q) = Finite d /\ 0 <= d.
Proof.
  intros Hq. eexists. split; [reflexivity|].
  rewrite Qred_correct.
  assert (Hk : (0 <= round_half_even (q * 100))%Z)
    by (apply round_half_even_nonneg; lra).
  rewrite Zle_Qle in Hk. change (inject_Z 0) with 0 in Hk.
  set (k := inject_Z (round_half_even (q * 100))) in *.
  assert (E : k / 100 == k * (1 # 100)) by (field; discriminate).
  rewrite E. lra.
Qed.

(** X8: every feature of the collection is tagged "Feature", carries a
    "Polygon" with one ring of five vertices of two numbers each, a tier
    and color that form one of the four pairs of the legend, and a
    discharge that is a finite number, not negative. *)
Theorem feature_well_formed boundary open_dataset grib_path ds out
    lat lon field fc f :
  open_dataset grib_path = Ok ds ->
  reduced_field ds = (out, Ok (lat, lon, field)) ->
  snd (grib_to_geojson boundary open_dataset grib_path) = Ok fc ->
  In f (features fc) ->
  feature_type f = "Feature" /\
  geometry_type (geometry f) = "Polygon" /\
  (exists ring, coordinates (geometry f) = [ring] /\
                length ring = 5%nat /\
                Forall (fun vertex => length vertex = 2%nat) ring) /\
  In (risk_level (properties f), risk_color (properties f))
    [(Some "1", Some "gray"); (Some "2", Some "orange");
     (Some "5", Some "red"); (Some "20", Some "purple")] /\
  (exists d, discharge (properties f) = Finite d /\ 0 <= d).
Proof.
  intros Hopen Hred Hrun Hf.
  destruct (compute_thresholds field) as [[q2 q5] q20] eqn:Hthr.
  destruct (grib_to_geojson_features _ _ _ _ _ _ _ _ _ _ _ _
              Hopen Hred Hthr Hrun) as [-> Hitems].
  simpl in Hf. apply in_flat_map in Hf. destruct Hf as ([i j] & Hc & Hf).
  destruct (cell_coordinates lat lon i j Hc)
    as (ll & lr & lt & lb & H1 & H2 & H3 & H4).
  unfold cell_features in Hf. simpl in Hf.
  rewrite (cell_body_eval boundary lat lon field q2 q5 q20 i j _ ll lr lt lb
             (Hitems i j Hc) H1 H2 H3 H4) in Hf.
  destruct (classify_point (item field [i; j]) q2 q5 q20)
    as [[level|] color] eqn:Hcl; [|contradiction].
  destruct (inside_boundary boundary ll lr lt lb); [|contradiction].
  destruct Hf as [<-|[]].
  destruct (classify_point_legend _ _ _ _ _ _ Hcl) as [Hleg Hpos].
  destruct (item field [i; j]) as [q| | |]; simpl in Hpos; try contradiction.
  repeat split; trivial.
  - eexists. split; [reflexivity|]. split; [reflexivity|].
    repeat constructor.
  - now apply round2_nonneg.
Qed.

(** X9: the loops read the field at the nodes (i, j) of the cells only:
    two fields of the same shape that agree there give the same features
    under the same thresholds, so the nodes of the last row and of the
    last column are never drawn. *)
Theorem border_nodes_unused boundary lat lon (f g : ndarray) q2 q5 q20 :
  shape f = shape g ->
  (forall i j, In (i, j) (cells lat lon) -> item f [i; j] = item g [i; j]) ->
  build_features boundary lat lon f q2 q5 q20 =
  build_features boundary lat lon g q2 q5 q20.
Proof.
  intros Hshape Hagree. unfold build_features.
  apply for_each_ext. intros i Hi s.
  apply for_each_ext. intros j Hj s'.
  assert (Hc : In (i, j) (cells lat lon)) by (unfold cells; now apply in_prod).
  unfold cell_body, getitem2. now rewrite Hshape, (Hagree i j Hc).
Qed.

(** ** Named dimensions *)

Lemma lookup_index (name : string) (l : list (string * nat)) n :
  lookup name l = Some n ->
  exists k, index_of name (map fst l) = Some k /\
            nth k (map snd l) 0%nat = n /\
            firstn k l ++ skipn (S k) l = remove_key name l.
Proof.
  induction l as [|[k0 v] l IH]; simpl; [discriminate|].
  destruct (String.eqb name k0).
  - intros [= ->]. exists 0%nat. now simpl.
  - intros H. destruct (IH H) as (k & Hk & Hn & Hr).
    exists (S k). rewrite Hk. simpl. repeat split; trivial.
    now rewrite <- Hr.
Qed.

Lemma index_lookup (name : string) (l : list (string * nat)) k :
  index_of name (map fst l) = Some k ->
  exists n, lookup name l = Some n.
Proof.
  revert k. induction l as [|[k0 v] l IH]; simpl; intros k; [discriminate|].
  destruct (String.eqb name k0); [now exists v|].
  destruct (index_of name (map fst l)) as [k'|]; [|discriminate].
  intros _. now apply (IH k').
Qed.

Lemma mem_lookup (name : string) (l : list (string * nat)) :
  mem name (map fst l) = true <-> exists n, lookup name l = Some n.
Proof.
  induction l as [|[k0 v] l IH]; simpl.
  - split; [discriminate | intros [n H]; discriminate].
  - destruct (String.eqb name k0); simpl.
    + split; [now exists v | trivial].
    + exact IH.
Qed.

Lemma remove_key_absent {A} (name : string) (l : list (string * A)) :
  lookup name l = None -> remove_key name l = l.
Proof.
  induction l as [|[k0 v] l IH]; simpl; trivial.
  destruct (String.eqb name k0); [discriminate|].
  intros H. now rewrite IH.
Qed.

(** [isel] on a dimension of the array: it succeeds exactly below the
    size, and takes the dimension away. *)
Lemma isel_cases (da : DataArray) (dim : string) (i n : nat) :
  lookup dim (sizes da) = Some n ->
  exists axis,
    index_of dim (dims da) = Some axis /\
    ((i < n)%nat ->
     isel da dim i =
       Ok {| sizes := remove_key dim (sizes da);
             coords := remove_key dim (coords da);
             data := fun idx =>
               data da (firstn axis idx ++ i :: skipn axis idx) |}) /\
    ((n <= i)%nat -> isel da dim i = Raise IndexError).
Proof.
  intros Hn. destruct (lookup_index dim (sizes da) n Hn) as (k & Hk & Hnth & Hr).
  exists k. split; [exact Hk|]. unfold isel, dims. rewrite Hk, Hnth, Hr.
  split; intros H.
  - apply Nat.ltb_lt in H. now rewrite H.
  - apply Nat.ltb_ge in H. now rewrite H.
Qed.

Lemma isel_sizes (da d : DataArray) (dim : string) (i : nat) :
  isel da dim i = Ok d -> sizes d = remove_key dim (sizes da).
Proof.
  unfold isel, dims.
  destruct (index_of dim (map fst (sizes da))) as [k|] eqn:Hk; [|discriminate].
  destruct (index_lookup dim (sizes da) k Hk) as [n Hn].
  destruct (lookup_index dim (sizes da) n Hn) as (k' & Hk' & _ & Hr).
  rewrite Hk in Hk'. injection Hk' as <-.
  destruct (i <? nth k (map snd (sizes da)) 0)%nat; [|discriminate].
  intros [= <-]. simpl. exact Hr.
Qed.

(** ** Lead time *)

Lemma index_set_size (name : string) (l : list (string * nat)) k m :
  index_of name (map fst l) = Some k ->
  firstn k l ++ (name, m) :: skipn (S k) l = set_size name m l.
Proof.
  revert k. induction l as [|[k0 v] l IH]; simpl; intros k; [discriminate|].
  destruct (String.eqb_spec name k0) as [->|_].
  - intros [= <-]. reflexivity.
  - destruct (index_of name (map fst l)) as [k'|] eqn:E; [|discriminate].
    simpl. intros [= <-]. rewrite <- (IH k' eq_refl). reflexivity.
Qed.

Lemma isel_many_sizes (da : DataArray) (dim : string) positions n :
  lookup dim (sizes da) = Some n ->
  (forall i, In i positions -> (i < n)%nat) ->
  exists d, isel_many da dim positions = Ok d /\
            sizes d = set_size dim (length positions) (sizes da).
Proof.
  intros Hn Hlt.
  destruct (lookup_index dim (sizes da) n Hn) as (k & Hk & Hnth & _).
  unfold isel_many, dims. rewrite Hk, Hnth.
  assert (Hall : forallb (fun i => (i <? n)%nat) positions = true).
  { apply forallb_forall. intros i Hi. apply Nat.ltb_lt. auto. }
  rewrite Hall. eexists. split; [reflexivity|]. simpl.
  now apply index_set_size.
Qed.

Lemma isel_many_empty_dim (da : DataArray) (dim : string) i positions :
  lookup dim (sizes da) = Some 0%nat ->
  isel_many da dim (i :: positions) = Raise IndexError.
Proof.
  intros Hn.
  destruct (lookup_index dim (sizes da) 0 Hn) as (k & Hk & Hnth & _).
  unfold isel_many, dims. rewrite Hk, Hnth. reflexivity.
Qed.

Lemma positions_from_bounds k x labels i :
  In i (positions_from k x labels) -> (k <= i < k + length labels)%nat.
Proof.
  revert k. induction labels as [|l labels IH]; simpl; intros k H;
    [contradiction|].
  destruct (label_is x l).
  - destruct H as [<-|H]; [lia|]. apply IH in H. lia.
  - apply IH in H. lia.
Qed.

Lemma positions_from_length k x labels :
  length (positions_from k x labels) = length (filter (label_is x) labels).
Proof.
  revert k. induction labels as [|l labels IH]; simpl; intros k; trivial.
  destruct (label_is x l); simpl; now rewrite IH.
Qed.

Lemma positions_from_none k x labels :
  (forall q, In (Number (Finite q)) labels -> ~ q == x) ->
  positions_from k x labels = [].
Proof.
  revert k. induction labels as [|l labels IH]; simpl; intros k H; trivial.
  rewrite IH by (intros q Hq; apply H; now right).
  destruct l as [[q0| | |]|ns]; simpl; trivial.
  destruct (Qeq_bool q0 x) eqn:E; trivial.
  apply Qeq_bool_iff in E. exfalso. apply (H q0); auto.
Qed.


(** An empty lead-time dimension: the first step is out of bounds. *)
Lemma select_lead_time_empty (var : DataArray) :
  lookup "step" (sizes var) = Some 0%nat ->
  select_lead_time var = Raise IndexError.
Proof.
  intros Hn. unfold select_lead_time.
  assert (Hm : mem "step" (dims var) = true)
    by (apply mem_lookup; eexists; eassumption).
  rewrite Hm.
  destruct (isel_cases var "step" 0 0 Hn) as (axis & _ & _ & Hraise).
  assert (Hsel : exists e, sel_step var 24 = Raise e).
  { unfold sel_step.
    destruct (lookup "step" (coords var)) as [labels|]; [|now eexists].
    destruct (label_positions 24 labels) as [|i [|j rest]].
    - now eexists.
    - destruct (isel_cases var "step" i 0 Hn) as (_ & _ & _ & Hi).
      rewrite Hi by lia. now eexists.
    - rewrite isel_many_empty_dim by exact Hn. now eexists. }
  destruct Hsel as [e ->]. rewrite Hraise by lia.
  now destruct (lookup "step" (coords var)).
Qed.

(** What the selection leaves of the dimensions. *)
Lemma select_lead_time_after (var : DataArray) :
  step_well_formed var ->
  lookup "step" (sizes var) <> Some 0%nat ->
  exists d, select_lead_time var = Ok d /\ sizes d = after_lead_time var.
Proof.
  intros Hwf Hne. unfold select_lead_time, after_lead_time.
  destruct (mem "step" (dims var)) eqn:Hm; [|now exists var].
  pose proof Hm as Hstep.
  apply mem_lookup in Hm. destruct Hm as [n Hn].
  assert (Hpos : (0 < n)%nat) by (destruct n; [congruence | lia]).
  destruct (isel_cases var "step" 0 n Hn) as (axis & _ & Hok0 & _).
  specialize (Hok0 Hpos). unfold lead_time_hits.
  destruct (lookup "step" (coords var)) as [labels|] eqn:Hl.
  - pose proof (Hwf labels Hstep Hl) as Hlen.
    rewrite Hn in Hlen. injection Hlen as ->.
    unfold sel_step, label_positions. rewrite Hl.
    rewrite <- (positions_from_length 0 24 labels).
    pose proof (positions_from_bounds 0 24 labels) as Hb.
    destruct (positions_from 0 24 labels) as [|i [|j rest]].
    + rewrite Hok0. eexists. split; reflexivity.
    + destruct (isel_cases var "step" i (length labels) Hn)
        as (axis' & _ & Hoki & _).
      rewrite Hoki by (apply (Hb i); now left).
      eexists. split; reflexivity.
    + destruct (isel_many_sizes var "step" (i :: j :: rest) (length labels) Hn)
        as (d & Hd & Hsd).
      { intros k Hk. now apply Hb. }
      rewrite Hd. exists d. split; trivial.
  - rewrite Hok0. eexists. split; reflexivity.
Qed.

(** X10: when the lead time is selected from a variable whose step
    coordinate has one label per position, the dimension "step" goes and
    every other dimension stays in place with its size, unless several
    lead times are labelled 24: then "step" stays, with their number as its
    size.  A variable without that dimension is returned as it is. *)
Theorem select_lead_time_sizes (var data_24h : DataArray) :
  step_well_formed var ->
  select_lead_time var = Ok data_24h ->
  sizes data_24h = after_lead_time var /\
  ((lead_time_hits var < 2)%nat ->
   sizes data_24h = remove_key "step" (sizes var)) /\
  (mem "step" (dims var) = false -> data_24h = var).
Proof.
  intros Hwf H.
  assert (Hne : lookup "step" (sizes var) <> Some 0%nat).
  { intros E. rewrite (select_lead_time_empty var E) in H. discriminate. }
  destruct (select_lead_time_after var Hwf Hne) as (d & Hd & Hsd).
  rewrite H in Hd. injection Hd as <-.
  split; [exact Hsd|]. split.
  - intros Hhits. rewrite Hsd. unfold after_lead_time.
    apply Nat.leb_gt in Hhits. rewrite Hhits.
    destruct (mem "step" (dims var)) eqn:Hm; trivial.
    rewrite remove_key_absent; trivial.
    destruct (lookup "step" (sizes var)) eqn:E; trivial.
    assert (Hm' : mem "step" (dims var) = true)
      by (apply mem_lookup; eexists; eassumption).
    congruence.
  - intros Hm. unfold select_lead_time in H. rewrite Hm in H. congruence.
Qed.

(** X11: selecting the lead time raises exactly when the variable has a
    dimension "step" of size zero, and then it is the index error of the
    first step. *)
Theorem select_lead_time_raises (var : DataArray) :
  (forall e, select_lead_time var = Raise e ->
             e = IndexError /\ lookup "step" (sizes var) = Some 0%nat) /\
  (lookup "step" (sizes var) = Some 0%nat ->
   select_lead_time var = Raise IndexError).
Proof.
  split; [|apply select_lead_time_empty].
  unfold select_lead_time. intros e H.
  destruct (mem "step" (dims var)) eqn:Hm; [|discriminate].
  apply mem_lookup in Hm. destruct Hm as [n Hn].
  destruct (isel_cases var "step" 0 n Hn) as (axis & _ & Hok & Hraise).
  assert (Hfirst : isel var "step" 0 = Raise e ->
                   e = IndexError /\ lookup "step" (sizes var) = Some 0%nat).
  { destruct n as [|n].
    - rewrite Hraise by lia. intros [= <-]. now split.
    - rewrite Hok by lia. discriminate. }
  destruct (lookup "step" (coords var)); [|now apply Hfirst].
  destruct (sel_step var 24); [discriminate | now apply Hfirst].
Qed.


(** X13: when the variable has a dimension "step" that is not empty and
    no label of its step coordinate is the number 24 (as when the labels
    are time spans), or it has no step coordinate, the selected field is
    the slice at the first position. *)
Theorem select_lead_time_fallback (var : DataArray) n axis :
  lookup "step" (sizes var) = Some n ->
  index_of "step" (dims var) = Some axis ->
  (0 < n)%nat ->
  (forall labels q, lookup "step" (coords var) = Some labels ->
                    In (Number (Finite q)) labels -> ~ q == 24) ->
  exists data_24h,
    select_lead_time var = Ok data_24h /\
    forall idx,
      data data_24h idx = data var (firstn axis idx ++ 0%nat :: skipn axis idx).
Proof.
  intros Hn Haxis Hpos Hnone.
  assert (Hm : mem "step" (dims var) = true)
    by (apply mem_lookup; eexists; eassumption).
  destruct (isel_cases var "step" 0 n Hn) as (axis' & Haxis' & Hok & _).
  rewrite Haxis in Haxis'. injection Haxis' as <-.
  unfold select_lead_time, sel_step, label_positions. rewrite Hm.
  destruct (lookup "step" (coords var)) as [labels|] eqn:Hl.
  - rewrite (positions_from_none 0 24 labels (fun q => Hnone labels q eq_refl)).
    rewrite (Hok Hpos). eexists. split; reflexivity.
  - rewrite (Hok Hpos). eexists. split; reflexivity.
Qed.

(** ** Dimensions of size one *)

Lemma lookup_app_absent {A} (name : string) (pre l : list (string * A)) :
  ~ In name (map fst pre) -> lookup name (pre ++ l) = lookup name l.
Proof.
  induction pre as [|[k v] pre IH]; simpl; intros H; trivial.
  destruct (String.eqb_spec name k) as [->|_]; [tauto|].
  apply IH. tauto.
Qed.

Lemma remove_key_app_absent {A} (name : string) (v : A)
    (pre rest : list (string * A)) :
  ~ In name (map fst pre) ->
  remove_key name (pre ++ (name, v) :: rest) = pre ++ rest.
Proof.
  induction pre as [|[k w] pre IH]; simpl; intros H.
  - now rewrite String.eqb_refl.
  - destruct (String.eqb_spec name k) as [->|_]; [tauto|].
    rewrite IH; tauto.
Qed.

Lemma drop_step_succeeds (dim : string) (acc : DataArray) :
  exists acc',
    (if negb (is_spatial dim)
        && match lookup dim (sizes acc) with
           | Some n => (n =? 1)%nat
           | None => false
           end
     then isel acc dim 0
     else Ok acc) = Ok acc'.
Proof.
  destruct (negb (is_spatial dim)); simpl; [|now eexists].
  destruct (lookup dim (sizes acc)) as [n|] eqn:Hn; [|now eexists].
  destruct (Nat.eqb_spec n 1) as [->|_]; [|now eexists].
  destruct (isel_cases acc dim 0 1 Hn) as (axis & _ & Hok & _).
  rewrite Hok by lia. now eexists.
Qed.

(** X14: dropping the dimensions of size one never raises. *)
Theorem drop_singletons_total (data_24h : DataArray) :
  exists data_max, drop_singletons data_24h = Ok data_max.
Proof.
  unfold drop_singletons. apply for_each_succeeds.
  intros dim _ acc. apply drop_step_succeeds.
Qed.

Lemma drop_loop (rest : list (string * nat)) :
  forall (pre : list (string * nat)) (acc : DataArray),
    NoDup (map fst (pre ++ rest)) ->
    sizes acc = pre ++ rest ->
    exists d,
      for_each (map fst rest)
        (fun dim data_max =>
           if negb (is_spatial dim)
              && match lookup dim (sizes data_max) with
                 | Some n => (n =? 1)%nat
                 | None => false
                 end
           then isel data_max dim 0
           else Ok data_max)
        acc = Ok d /\
      sizes d =
        pre ++ filter (fun d => is_spatial (fst d) || negb (snd d =? 1)%nat)
                 rest.
Proof.
  induction rest as [|[name n] rest IH]; intros pre acc Hnd Hs; simpl.
  - exists acc. now split.
  - assert (Hpre : ~ In name (map fst pre)).
    { rewrite map_app in Hnd. simpl in Hnd. apply NoDup_remove_2 in Hnd.
      intros H. apply Hnd. apply in_or_app. now left. }
    assert (Hnd' : NoDup (map fst (pre ++ rest))).
    { rewrite map_app in *. simpl in Hnd. now apply NoDup_remove_1 in Hnd. }
    rewrite Hs, (lookup_app_absent name pre _ Hpre). simpl.
    rewrite String.eqb_refl.
    destruct (is_spatial name) eqn:Hsp; simpl.
    + destruct (IH (pre ++ [(name, n)]) acc) as (d & Hd & Hsd).
      * now rewrite <- app_assoc.
      * now rewrite <- app_assoc.
      * exists d. split; trivial. now rewrite Hsd, <- app_assoc.
    + destruct (Nat.eqb_spec n 1) as [->|Hn]; simpl.
      * assert (Hl : lookup name (sizes acc) = Some 1%nat).
        { rewrite Hs, (lookup_app_absent name pre _ Hpre). simpl.
          now rewrite String.eqb_refl. }
        destruct (isel_cases acc name 0 1 Hl) as (axis & _ & Hok & _).
        rewrite Hok by lia. simpl.
        apply IH; trivial. simpl.
        now rewrite Hs, remove_key_app_absent.
      * destruct (IH (pre ++ [(name, n)]) acc) as (d & Hd & Hsd).
        -- now rewrite <- app_assoc.
        -- now rewrite <- app_assoc.
        -- exists d. split; trivial. now rewrite Hsd, <- app_assoc.
Qed.

(** X15: for a variable whose dimension names are distinct, dropping
    keeps, in their order and with their sizes, the four spatial names and
    the dimensions whose size is not one, and nothing else. *)
Theorem drop_singletons_sizes (data_24h data_max : DataArray) :
  NoDup (dims data_24h) ->
  drop_singletons data_24h = Ok data_max ->
  sizes data_max =
    filter (fun d => is_spatial (fst d) || negb (snd d =? 1)%nat)
      (sizes data_24h).
Proof.
  intros Hnd H.
  destruct (drop_loop (sizes data_24h) [] data_24h Hnd eq_refl)
    as (d & Hd & Hsd).
  unfold drop_singletons, dims in H. rewrite Hd in H. injection H as <-.
  exact Hsd.
Qed.

Lemma remove_key_keys_incl {A} (name k : string) (l : list (string * A)) :
  In k (map fst (remove_key name l)) -> In k (map fst l).
Proof.
  induction l as [|[k0 v] l IH]; simpl; trivial.
  destruct (String.eqb name k0); simpl; tauto.
Qed.

Lemma remove_key_NoDup {A} (name : string) (l : list (string * A)) :
  NoDup (map fst l) -> NoDup (map fst (remove_key name l)).
Proof.
  induction l as [|[k0 v] l IH]; simpl; trivial.
  intros H. inversion H as [|? ? Hk Hl]; subst.
  destruct (String.eqb name k0); simpl; trivial.
  constructor; auto. intros Hin. apply Hk.
  eapply remove_key_keys_incl; eassumption.
Qed.

Lemma remove_key_other {A} (name k : string) (v : A) (l : list (string * A)) :
  k <> name -> In (k, v) l -> In (k, v) (remove_key name l).
Proof.
  intros Hneq. induction l as [|[k0 v0] l IH]; simpl; trivial.
  destruct (String.eqb_spec name k0) as [->|_].
  - intros [[= <- <-]|H]; [congruence | trivial].
  - simpl. tauto.
Qed.

Lemma set_size_keys (name : string) (n : nat) (l : list (string * nat)) :
  map fst (set_size name n l) = map fst l.
Proof.
  induction l as [|[k m] l IH]; simpl; trivial.
  destruct (String.eqb name k); simpl; congruence.
Qed.

Lemma set_size_other (name k : string) (n v : nat) (l : list (string * nat)) :
  k <> name -> In (k, v) l -> In (k, v) (set_size name n l).
Proof.
  intros Hneq. induction l as [|[k0 v0] l IH]; simpl; trivial.
  destruct (String.eqb_spec name k0) as [->|_]; simpl.
  - intros [[= <- <-]|H]; [congruence | now right].
  - tauto.
Qed.

Lemma after_lead_time_NoDup (var : DataArray) :
  NoDup (dims var) -> NoDup (map fst (after_lead_time var)).
Proof.
  intros H. unfold after_lead_time.
  destruct (mem "step" (dims var)); trivial.
  destruct (2 <=? lead_time_hits var)%nat.
  - now rewrite set_size_keys.
  - now apply remove_key_NoDup.
Qed.

Lemma after_lead_time_spatial (var : DataArray) name n :
  In (name, n) (sizes var) -> is_spatial name = true ->
  In (name, n) (after_lead_time var).
Proof.
  intros Hin Hsp. unfold after_lead_time.
  assert (Hne : name <> "step") by (intros ->; discriminate).
  destruct (mem "step" (dims var)); trivial.
  destruct (2 <=? lead_time_hits var)%nat.
  - now apply set_size_other.
  - now apply remove_key_other.
Qed.

(** The two steps of the reduction, from the variable to the field. *)
Lemma reduction_sizes (var data_24h : DataArray) :
  NoDup (dims var) ->
  step_well_formed var ->
  select_lead_time var = Ok data_24h ->
  exists data_max,
    drop_singletons data_24h = Ok data_max /\
    sizes data_max = reduced_sizes var.
Proof.
  intros Hnd Hwf H24.
  assert (Hne : lookup "step" (sizes var) <> Some 0%nat).
  { intros E. rewrite (select_lead_time_empty var E) in H24. discriminate. }
  destruct (select_lead_time_after var Hwf Hne) as (d & Hd & Hs).
  rewrite H24 in Hd. injection Hd as <-.
  assert (Hnd' : NoDup (map fst ([] ++ sizes data_24h))).
  { simpl. rewrite Hs. now apply after_lead_time_NoDup. }
  destruct (drop_loop (sizes data_24h) [] data_24h Hnd' eq_refl)
    as (dmax & Hdmax & Hsd).
  exists dmax. split; [exact Hdmax|].
  simpl in Hsd. rewrite Hsd, Hs. reflexivity.
Qed.

(** X16: for a variable whose dimension names are distinct and whose step
    coordinate has one label per position, the reduced field has the
    dimensions that the lead time leaves (the variable's without "step",
    or with "step" of the number of lead times labelled 24 when there are
    several) without the other non-spatial dimensions of size one; a
    latitude or longitude dimension is still there with its size. *)
Theorem reduced_dimensions (var data_24h data_max : DataArray) :
  NoDup (dims var) ->
  step_well_formed var ->
  select_lead_time var = Ok data_24h ->
  drop_singletons data_24h = Ok data_max ->
  sizes data_max = reduced_sizes var /\
  ((lead_time_hits var < 2)%nat ->
   sizes data_max =
     filter (fun d => is_spatial (fst d) || negb (snd d =? 1)%nat)
       (remove_key "step" (sizes var))) /\
  (forall name n,
      In (name, n) (sizes var) -> is_spatial name = true ->
      In (name, n) (sizes data_max)).
Proof.
  intros Hnd Hwf H24 Hmax.
  destruct (reduction_sizes var data_24h Hnd Hwf H24) as (d & Hd & Hsd).
  rewrite Hmax in Hd. injection Hd as <-.
  split; [exact Hsd|]. split.
  - intros Hhits. rewrite Hsd. unfold reduced_sizes, after_lead_time.
    apply Nat.leb_gt in Hhits. rewrite Hhits.
    destruct (mem "step" (dims var)) eqn:Hm; trivial.
    rewrite remove_key_absent; trivial.
    destruct (lookup "step" (sizes var)) eqn:E; trivial.
    assert (Hm' : mem "step" (dims var) = true)
      by (apply mem_lookup; eexists; eassumption).
    congruence.
  - intros name n Hin Hsp. rewrite Hsd. apply filter_In. split.
    + now apply after_lead_time_spatial.
    + simpl. now rewrite Hsp.
Qed.

(** ** Order of the failures and printed lines *)

Lemma ds_dim_size_absent (name : string) (vars : list (string * DataArray)) :
  (forall k v, In (k, v) vars -> lookup name (sizes v) = None) ->
  ds_dim_size name vars = None.
Proof.
  induction vars as [|[k v] vars IH]; simpl; intros H; trivial.
  rewrite (H k v) by now left. apply IH. intros k' v' Hin.
  apply (H k' v'). now right.
Qed.

Lemma ds_coord_values_missing (ds : Dataset) (name : string) :
  lookup name (ds_coords ds) = None ->
  lookup name (data_vars ds) = None ->
  (forall k v, In (k, v) (data_vars ds) -> lookup name (sizes v) = None) ->
  ds_coord_values ds name = Raise (KeyError name).
Proof.
  intros Hc Hv Hd. unfold ds_coord_values.
  now rewrite Hc, Hv, (ds_dim_size_absent name _ Hd).
Qed.

(** X17: a latitude or longitude name under which the cube has no
    coordinate array, no data variable and no dimension is a key error,
    raised before the rank of the field is looked at: first for the
    latitude, then for the longitude. *)
Theorem missing_coordinate boundary open_dataset grib_path ds out
    var data_24h data_max :
  open_dataset grib_path = Ok ds ->
  choose_variable ds = (out, Ok var) ->
  select_lead_time var = Ok data_24h ->
  drop_singletons data_24h = Ok data_max ->
  let absent name :=
    lookup name (ds_coords ds) = None /\
    lookup name (data_vars ds) = None /\
    (forall k v, In (k, v) (data_vars ds) -> lookup name (sizes v) = None) in
  (absent (lat_name_of data_max) ->
   snd (grib_to_geojson boundary open_dataset grib_path) =
     Raise (KeyError (lat_name_of data_max))) /\
  (forall lat,
      ds_coord_values ds (lat_name_of data_max) = Ok lat ->
      absent (lon_name_of data_max) ->
      snd (grib_to_geojson boundary open_dataset grib_path) =
        Raise (KeyError (lon_name_of data_max))).
Proof.
  intros Hopen Hvar H24 Hmax absent.
  unfold grib_to_geojson, reduced_field, bind, print, lift.
  rewrite Hopen, Hvar, H24, Hmax. split.
  - intros (Hc & Hv & Hd).
    now rewrite (ds_coord_values_missing ds _ Hc Hv Hd).
  - intros lat Hlat (Hc & Hv & Hd).
    now rewrite Hlat, (ds_coord_values_missing ds _ Hc Hv Hd).
Qed.

(** X18: a successful run prints, in this order, the opening line, what
    the variable selection printed, the thresholds that it used and the
    number of features that it returns. *)
Theorem printed_lines boundary open_dataset grib_path ds out
    lat lon field q2 q5 q20 fc :
  open_dataset grib_path = Ok ds ->
  reduced_field ds = (out, Ok (lat, lon, field)) ->
  compute_thresholds field = (q2, q5, q20) ->
  snd (grib_to_geojson boundary open_dataset grib_path) = Ok fc ->
  fst (grib_to_geojson boundary open_dataset grib_path) =
    ProcessOpening grib_path :: out
      ++ [InfoThresholds q2 q5 q20; DoneGeoJSON (length (features fc))].
Proof.
  intros Hopen Hred Hthr. unfold grib_to_geojson, bind, print, lift.
  rewrite Hopen, Hred. simpl.
  destruct (negb (ndim field =? 2)%nat); simpl; [discriminate|].
  rewrite Hthr. simpl.
  destruct (build_features boundary lat lon field q2 q5 q20) as [fs|e];
    simpl; [|discriminate].
  intros [= <-]. reflexivity.
Qed.

Lemma lookup_In {A} (name : string) (l : list (string * A)) v :
  lookup name l = Some v -> In (name, v) l.
Proof.
  induction l as [|[k w] l IH]; simpl; [discriminate|].
  destruct (String.eqb_spec name k) as [->|_].
  - intros [= ->]. now left.
  - intros H. right. now apply IH.
Qed.

Lemma first_present_candidate names ds c :
  first_present names ds = Some c -> In c names.
Proof.
  induction names as [|x names IH]; simpl; [discriminate|].
  destruct (mem x (map fst (data_vars ds))); [intros [= <-]|]; auto.
Qed.

Lemma first_present_none names ds :
  first_present names ds = None ->
  forall c, In c names -> ~ In c (map fst (data_vars ds)).
Proof.
  induction names as [|x names IH]; simpl; intros H c Hc; [contradiction|].
  destruct (mem x (map fst (data_vars ds))) eqn:E; [discriminate|].
  destruct Hc as [<-|Hc]; [|now apply IH].
  intros Hin. apply mem_In in Hin. congruence.
Qed.

(** X19: the variable that [choose_variable] returns is one that the cube
    declares, under the name that it prints: a candidate name with the
    information line, or, when the cube declares no candidate, the first
    declared name with the warning line. *)
Theorem choose_variable_declared (ds : Dataset) out var :
  choose_variable ds = (out, Ok var) ->
  exists name,
    In (name, var) (data_vars ds) /\
    ((out = [InfoUsingVariable name] /\ In name candidates) \/
     (out = [WarnFallbackVariable name] /\
      (forall c, In c candidates -> ~ In c (map fst (data_vars ds))) /\
      exists rest, data_vars ds = (name, var) :: rest)).
Proof.
  unfold choose_variable, ds_getitem.
  destruct (first_present candidates ds) as [c|] eqn:E.
  - destruct (lookup c (data_vars ds)) as [v|] eqn:Hv; simpl; [|discriminate].
    intros [= <- <-]. exists c. split; [now apply lookup_In|].
    left. split; trivial. exact (first_present_candidate candidates ds c E).
  - destruct (data_vars ds) as [|[name v] rest] eqn:Hd; simpl; [discriminate|].
    rewrite String.eqb_refl. simpl. intros [= <- <-].
    exists name. split; [now left|]. right. split; trivial. split.
    + intros c Hc Hin.
      apply (first_present_none _ _ E c Hc). now rewrite Hd.
    + now exists rest.
Qed.

(** ** The daily file *)

Lemma string_length_append (s t : string) :
  String.length (s ++ t) = (String.length s + String.length t)%nat.
Proof. induction s as [|a s IH]; simpl; congruence. Qed.

Lemma append_prefix_inj (s a b : string) : (s ++ a = s ++ b)%string -> a = b.
Proof. induction s as [|c s IH]; simpl; intros H; [|injection H]; auto. Qed.

Lemma append_suffix_inj (s1 s2 t1 t2 : string) :
  String.length t1 = String.length t2 ->
  (s1 ++ t1 = s2 ++ t2)%string -> s1 = s2 /\ t1 = t2.
Proof.
  revert s2. induction s1 as [|a s1 IH]; intros [|b s2] Hlen H; simpl in H.
  - now split.
  - exfalso. apply (f_equal String.length) in H. simpl in H.
    rewrite string_length_append in H. lia.
  - exfalso. apply (f_equal String.length) in H. simpl in H.
    rewrite string_length_append in H. lia.
  - injection H as -> H. destruct (IH s2 Hlen H) as [-> ->]. now split.
Qed.

Lemma digit_inj (m n : nat) :
  (m < 10)%nat -> (n < 10)%nat -> digit m = digit n -> m = n.
Proof.
  unfold digit. intros Hm Hn H. apply (f_equal nat_of_ascii) in H.
  rewrite !nat_ascii_embedding in H by lia. lia.
Qed.

Lemma two_characters_inj (a b c d : ascii) :
  String a (String b EmptyString) = String c (String d EmptyString) ->
  a = c /\ b = d.
Proof. intros H. injection H. auto. Qed.

Lemma two_digits_inj (m n : nat) :
  (m < 100)%nat -> (n < 100)%nat -> two_digits m = two_digits n -> m = n.
Proof.
  unfold two_digits. intros Hm Hn H.
  apply two_characters_inj in H. destruct H as [H1 H0].
  apply digit_inj in H1;
    try (apply Nat.Div0.div_lt_upper_bound; lia).
  apply digit_inj in H0; try (apply Nat.mod_upper_bound; lia).
  pose proof (Nat.div_mod_eq m 10) as Em.
  pose proof (Nat.div_mod_eq n 10) as En.
  rewrite H1, H0 in Em. lia.
Qed.

Lemma four_digits_inj (y z : nat) : four_digits y = four_digits z -> y = z.
Proof.
  unfold four_digits. intros H.
  apply (f_equal NilEmpty.uint_of_string) in H. rewrite !NilEmpty.usu in H.
  injection H as H. apply (f_equal Nat.of_uint) in H.
  now rewrite !DecimalNat.Unsigned.of_to in H.
Qed.

(** X20: two calendar days never share a file name, so the file of
    another day does not count as the forecast of today. *)
Theorem grib_path_injective (d1 d2 : datetime) :
  (1000 <= year d1)%nat -> (1000 <= year d2)%nat ->
  (1 <= month d1 <= 12)%nat -> (1 <= month d2 <= 12)%nat ->
  (1 <= day d1 <= 31)%nat -> (1 <= day d2 <= 31)%nat ->
  grib_path_of d1 = grib_path_of d2 -> d1 = d2.
Proof.
  intros _ _ Hm1 Hm2 Hd1 Hd2 H. unfold grib_path_of in H.
  apply append_prefix_inj in H.
  apply append_suffix_inj in H; [|reflexivity]. destruct H as [H _].
  unfold date_key_of in H.
  apply append_suffix_inj in H; [|reflexivity]. destruct H as [Hy H].
  apply (append_suffix_inj _ _ (two_digits (day d1)) (two_digits (day d2)))
    in H; [|reflexivity].
  destruct H as [Hm Hd].
  apply four_digits_inj in Hy.
  apply two_digits_inj in Hm; try lia.
  apply two_digits_inj in Hd; try lia.
  destruct d1, d2. simpl in *. congruence.
Qed.

(** X21: when [retrieve] leaves its target in place, a call that returns
    has the file of the day in place, and every later call on that day
    returns the same path without a retrieval and without changing the
    files, whatever the client would do. *)
Theorem download_then_cached
    (cds_retrieve : string -> request -> string -> world -> result world)
    now_vn w out grib_path w' :
  (forall name req target w0 w1,
      cds_retrieve name req target w0 = Ok w1 ->
      path_exists target w1 = true) ->
  download_glofas_forecast cds_retrieve now_vn w = (out, Ok (grib_path, w')) ->
  grib_path = grib_path_of now_vn /\
  path_exists grib_path w' = true /\
  forall other_client,
    download_glofas_forecast other_client now_vn w' =
      ([SkipExists (date_key_of now_vn) grib_path], Ok (grib_path, w')).
Proof.
  intros Hpost. unfold download_glofas_forecast.
  destruct (path_exists (grib_path_of now_vn) w) eqn:E.
  - intros [= <- <- <-]. repeat split; trivial.
    intros other. now rewrite E.
  - destruct (cds_retrieve _ _ _ w) as [w1|e] eqn:R; [|discriminate].
    intros [= <- <- <-]. apply Hpost in R.
    repeat split; trivial. intros other. now rewrite R.
Qed.

(** ** The boundary builder *)



(** ** The further properties at the example data *)

Ltac fle_holds := apply fle_iff; vm_compute; reflexivity.

Lemma thresholds_within_range_witness :
  (Fle (Finite 0.1) (Finite (17 # 8)) /\ Fle (Finite (17 # 8)) (Finite 12.0))
  /\ (Fle (Finite 0.1) (Finite (159 # 20))
      /\ Fle (Finite (159 # 20)) (Finite 12.0))
  /\ (Fle (Finite 0.1) (Finite (573 # 50))
      /\ Fle (Finite (573 # 50)) (Finite 12.0)).
Proof.
  apply (thresholds_within_range (array2d example_rows)
           (Finite 0.1) (Finite 12.0)).
  - vm_compute. discriminate.
  - intros x Hx. vm_compute in Hx.
    destruct Hx as [<-|[<-|[<-|[<-|[]]]]]; split; fle_holds.
  - vm_compute. reflexivity.
Defined.

Lemma largest_value_top_tier_witness :
  classify_point (Finite 12.0)
    (Finite (17 # 8)) (Finite (159 # 20)) (Finite (573 # 50)) =
    (Some "20", Some "purple").
Proof.
  apply (largest_value_top_tier (array2d example_rows)).
  - vm_compute. tauto.
  - intros x Hx. vm_compute in Hx.
    destruct Hx as [<-|[<-|[<-|[<-|[]]]]]; fle_holds.
  - vm_compute. reflexivity.
Defined.

Lemma classify_point_monotone_witness :
  (severity (classify_point (Finite 0.5)
               (Finite (17 # 8)) (Finite (159 # 20)) (Finite (573 # 50)))
   <= severity (classify_point (Finite 3.0)
                  (Finite (17 # 8)) (Finite (159 # 20)) (Finite (573 # 50))))%nat.
Proof.
  apply classify_point_monotone.
  - fle_holds.
  - reflexivity.
Defined.

Lemma feature_count_bound_witness :
  (length (features (collection [example_feature]))
   <= (length example_lat - 1) * (length example_lon - 1))%nat.
Proof.
  apply (feature_count_bound None (fun _ => Ok example_cube)
           "forecast.grib" example_cube [InfoUsingVariable "dis24"]
           example_lat example_lon (array2d example_rows)).
  - reflexivity.
  - reflexivity.
  - vm_compute. reflexivity.
Defined.

Lemma clipping_only_removes_witness :
  let unclipped :=
    cell_features None edge_lat edge_lon (array2d edge_rows)
      (Finite 1) (Finite 1) (Finite 1) in
  snd (grib_to_geojson None (fun _ => Ok edge_cube) "forecast.grib") =
    Ok (collection (flat_map unclipped (cells edge_lat edge_lon))) /\
  (exists keep : nat * nat -> bool,
      features (collection []) =
        flat_map unclipped (filter keep (cells edge_lat edge_lon))) /\
  (length (features (collection []))
   <= length (flat_map unclipped (cells edge_lat edge_lon)))%nat.
Proof.
  apply (clipping_only_removes square (fun _ => Ok edge_cube) "forecast.grib"
           edge_cube [InfoUsingVariable "dis24"]
           edge_lat edge_lon (array2d edge_rows)
           (Finite 1) (Finite 1) (Finite 1) (collection [])).
  - reflexivity.
  - reflexivity.
  - vm_compute. reflexivity.
  - vm_compute. reflexivity.
Defined.

Lemma no_positive_value_no_feature_witness :
  features (collection []) = [].
Proof.
  apply (no_positive_value_no_feature None (fun _ => Ok dry_cube)
           "forecast.grib" dry_cube [InfoUsingVariable "dis24"]
           example_lat example_lon (array2d dry_rows) (collection [])).
  - reflexivity.
  - reflexivity.
  - vm_compute. reflexivity.
  - vm_compute. reflexivity.
Defined.

Lemma index_error_iff_witness :
  exists fc,
    snd (grib_to_geojson None (fun _ => Ok example_cube) "forecast.grib")
      = Ok fc.
Proof.
  apply (proj1 (index_error_iff None (fun _ => Ok example_cube)
                  "forecast.grib" example_cube [InfoUsingVariable "dis24"]
                  example_lat example_lon (array2d example_rows) 2 2
                  eq_refl eq_refl eq_refl)).
  intros i j H. vm_compute in H. destruct H as [H|[]].
  injection H as <- <-. lia.
Defined.

Lemma feature_well_formed_witness :
  feature_type example_feature = "Feature" /\
  geometry_type (geometry example_feature) = "Polygon" /\
  (exists ring, coordinates (geometry example_feature) = [ring] /\
                length ring = 5%nat /\
                Forall (fun vertex => length vertex = 2%nat) ring) /\
  In (risk_level (properties example_feature),
      risk_color (properties example_feature))
    [(Some "1", Some "gray"); (Some "2", Some "orange");
     (Some "5", Some "red"); (Some "20", Some "purple")] /\
  (exists d, discharge (properties example_feature) = Finite d /\ 0 <= d).
Proof.
  apply (feature_well_formed None (fun _ => Ok example_cube)
           "forecast.grib" example_cube [InfoUsingVariable "dis24"]
           example_lat example_lon (array2d example_rows)
           (collection [example_feature]) example_feature).
  - reflexivity.
  - reflexivity.
  - vm_compute. reflexivity.
  - left. reflexivity.
Defined.

Lemma border_nodes_unused_witness :
  build_features None example_lat example_lon (array2d example_rows)
    (Finite 1) (Finite 5) (Finite 10) =
  build_features None example_lat example_lon (array2d border_rows)
    (Finite 1) (Finite 5) (Finite 10).
Proof.
  apply border_nodes_unused.
  - reflexivity.
  - intros i j H. vm_compute in H.
    destruct H as [H|[]]. injection H as <- <-. reflexivity.
Defined.

Lemma select_lead_time_sizes_witness :
  sizes (forecast_24h 3) = after_lead_time (forecast_var 3) /\
  ((lead_time_hits (forecast_var 3) < 2)%nat ->
   sizes (forecast_24h 3) = remove_key "step" (sizes (forecast_var 3))) /\
  (mem "step" (dims (forecast_var 3)) = false ->
   forecast_24h 3 = forecast_var 3).
Proof.
  apply select_lead_time_sizes.
  - intros labels _ H. injection H as <-. reflexivity.
  - reflexivity.
Defined.


Lemma select_lead_time_fallback_witness :
  exists data_24h,
    select_lead_time late_var = Ok data_24h /\
    forall idx,
      data data_24h idx =
      data late_var (firstn 0 idx ++ 0%nat :: skipn 0 idx).
Proof.
  apply (select_lead_time_fallback late_var 2 0).
  - reflexivity.
  - reflexivity.
  - lia.
  - intros labels q Hl Hin. injection Hl as <-.
    destruct Hin as [H|[H|[]]]; injection H as <-; discriminate.
Defined.

Lemma drop_singletons_sizes_witness :
  sizes forecast_field =
    filter (fun d => is_spatial (fst d) || negb (snd d =? 1)%nat)
      (sizes (forecast_24h 1)).
Proof.
  apply drop_singletons_sizes.
  - repeat constructor; simpl; intuition discriminate.
  - reflexivity.
Defined.

Lemma reduced_dimensions_witness :
  sizes forecast_field = reduced_sizes (forecast_var 1) /\
  ((lead_time_hits (forecast_var 1) < 2)%nat ->
   sizes forecast_field =
     filter (fun d => is_spatial (fst d) || negb (snd d =? 1)%nat)
       (remove_key "step" (sizes (forecast_var 1)))) /\
  (forall name n,
      In (name, n) (sizes (forecast_var 1)) -> is_spatial name = true ->
      In (name, n) (sizes forecast_field)).
Proof.
  apply (reduced_dimensions (forecast_var 1) (forecast_24h 1) forecast_field).
  - repeat constructor; simpl; intuition discriminate.
  - intros labels _ H. injection H as <-. reflexivity.
  - reflexivity.
  - reflexivity.
Defined.

Lemma missing_coordinate_witness :
  snd (grib_to_geojson None (fun _ => Ok projected_cube) "forecast.grib") =
    Raise (KeyError "lat").
Proof.
  apply (proj1 (missing_coordinate None (fun _ => Ok projected_cube)
                  "forecast.grib" projected_cube [InfoUsingVariable "dis24"]
                  projected_var projected_var projected_var
                  eq_refl eq_refl eq_refl eq_refl)).
  split; [reflexivity|]. split; [reflexivity|].
  intros k v [H|[]]. injection H as <- <-. reflexivity.
Defined.

Lemma printed_lines_witness :
  fst (grib_to_geojson None (fun _ => Ok example_cube) "forecast.grib") =
    ProcessOpening "forecast.grib" :: [InfoUsingVariable "dis24"]
      ++ [InfoThresholds (Finite (17 # 8)) (Finite (159 # 20))
            (Finite (573 # 50));
          DoneGeoJSON (length (features (collection [example_feature])))].
Proof.
  apply (printed_lines None (fun _ => Ok example_cube) "forecast.grib"
           example_cube [InfoUsingVariable "dis24"]
           example_lat example_lon (array2d example_rows)).
  - reflexivity.
  - reflexivity.
  - vm_compute. reflexivity.
  - vm_compute. reflexivity.
Defined.

Lemma choose_variable_declared_witness :
  exists name,
    In (name, forecast_var 3) (data_vars (forecast_cube 3 "unlisted")) /\
    (([WarnFallbackVariable "unlisted"] = [InfoUsingVariable name]
      /\ In name candidates) \/
     ([WarnFallbackVariable "unlisted"] = [WarnFallbackVariable name] /\
      (forall c, In c candidates ->
                 ~ In c (map fst (data_vars (forecast_cube 3 "unlisted")))) /\
      exists rest,
        data_vars (forecast_cube 3 "unlisted")
          = (name, forecast_var 3) :: rest)).
Proof.
  apply (choose_variable_declared (forecast_cube 3 "unlisted")).
  reflexivity.
Defined.

Lemma grib_path_injective_witness : example_day = example_day.
Proof.
  apply (grib_path_injective example_day example_day);
    try (simpl; lia).
  reflexivity.
Defined.

Lemma download_then_cached_witness :
  let grib_path := "glofas_forecast_gialai_20251119.grib" in
  let w' := {| files := [grib_path] |} in
  grib_path = grib_path_of example_day /\
  path_exists grib_path w' = true /\
  forall other_client,
    download_glofas_forecast other_client example_day w' =
      ([SkipExists (date_key_of example_day) grib_path], Ok (grib_path, w')).
Proof.
  apply (download_then_cached writing_client example_day {| files := [] |}
           [DownloadFetching "20251119";
            DoneDownloaded "glofas_forecast_gialai_20251119.grib"]).
  - intros name req target w0 w1 H. injection H as <-.
    unfold path_exists. simpl. now rewrite String.eqb_refl.
  - reflexivity.
Defined.



(** ** The shape of the reduced field *)

Lemma reduced_field_steps ds out var data_24h data_max lat lon :
  choose_variable ds = (out, Ok var) ->
  select_lead_time var = Ok data_24h ->
  drop_singletons data_24h = Ok data_max ->
  ds_coord_values ds (lat_name_of data_max) = Ok lat ->
  ds_coord_values ds (lon_name_of data_max) = Ok lon ->
  reduced_field ds = (out ++ [], Ok (lat, lon, values data_max)).
Proof.
  intros Hvar H24 Hmax Hlat Hlon.
  unfold reduced_field, bind, lift.
  rewrite Hvar, H24, Hmax, Hlat, Hlon. reflexivity.
Qed.

(** C8: for a cube whose chosen variable has distinct dimension names, a
    step coordinate with one label per position and a lead-time dimension
    that is not empty, and whose latitude and longitude arrays are found
    under the accepted spellings, the run raises the shape error exactly
    when the field has not two dimensions after the lead time is selected
    and the other non-spatial dimensions of size one are dropped; the
    error reports the sizes of these dimensions.  With two dimensions the
    run goes on to the thresholds and the cells, where the only error left
    is an index error. *)
Theorem shape_error_iff boundary open_dataset grib_path ds out var lat lon :
  open_dataset grib_path = Ok ds ->
  choose_variable ds = (out, Ok var) ->
  NoDup (dims var) ->
  step_well_formed var ->
  lookup "step" (sizes var) <> Some 0%nat ->
  let reduced := reduced_sizes var in
  ds_coord_values ds
    (if mem "latitude" (map fst reduced) then "latitude" else "lat")
    = Ok lat ->
  ds_coord_values ds
    (if mem "longitude" (map fst reduced) then "longitude" else "lon")
    = Ok lon ->
  let run := snd (grib_to_geojson boundary open_dataset grib_path) in
  ((exists got, run = Raise (RuntimeError_shape got)) <->
   length reduced <> 2%nat) /\
  (length reduced <> 2%nat ->
   run = Raise (RuntimeError_shape (map snd reduced))) /\
  (length reduced = 2%nat ->
   (exists fs, run = Ok (collection fs)) \/ run = Raise IndexError).
Proof.
  intros Hopen Hvar Hnd Hwf Hne reduced Hlat Hlon run.
  destruct (select_lead_time_after var Hwf Hne) as (data_24h & H24 & _).
  destruct (reduction_sizes var data_24h Hnd Hwf H24)
    as (data_max & Hmax & Hsizes).
  fold reduced in Hsizes.
  assert (Hlat' : ds_coord_values ds (lat_name_of data_max) = Ok lat)
    by (unfold lat_name_of, dims; now rewrite Hsizes).
  assert (Hlon' : ds_coord_values ds (lon_name_of data_max) = Ok lon)
    by (unfold lon_name_of, dims; now rewrite Hsizes).
  pose proof (reduced_field_steps _ _ _ _ _ _ _ Hvar H24 Hmax Hlat' Hlon')
    as Hred.
  set (field := values data_max) in *.
  assert (Hshape : shape field = map snd reduced)
    by (unfold field, values; simpl; now rewrite Hsizes).
  assert (Hdim : ndim field = length reduced)
    by (unfold ndim; now rewrite Hshape, length_map).
  destruct (compute_thresholds field) as [[q2 q5] q20] eqn:Hthr.
  pose proof (grib_to_geojson_run boundary _ _ _ _ _ _ _ _ _ _
                Hopen Hred Hthr) as Hrun.
  fold run in Hrun. rewrite Hdim, Hshape in Hrun.
  destruct (Nat.eqb_spec (length reduced) 2) as [E|E]; simpl in Hrun.
  - assert (Hcont : (exists fs, run = Ok (collection fs))
                    \/ run = Raise IndexError).
    { destruct (build_features boundary lat lon field q2 q5 q20)
        as [fs|e] eqn:Hb.
      - left. now exists fs.
      - right. apply build_features_raises in Hb. now subst e. }
    repeat split; try tauto.
    intros [got Hgot]. destruct Hcont as [[fs Hfs]|Hidx]; congruence.
  - repeat split; try tauto.
    intros _. now exists (map snd reduced).
Qed.

Lemma shape_error_iff_witness :
  let reduced := reduced_sizes (forecast_var 1) in
  let run :=
    snd (grib_to_geojson None (fun _ => Ok (forecast_cube 1 "dis"))
           "forecast.grib") in
  ((exists got, run = Raise (RuntimeError_shape got)) <->
   length reduced <> 2%nat) /\
  (length reduced <> 2%nat ->
   run = Raise (RuntimeError_shape (map snd reduced))) /\
  (length reduced = 2%nat ->
   (exists fs, run = Ok (collection fs)) \/ run = Raise IndexError).
Proof.
  apply (shape_error_iff None (fun _ => Ok (forecast_cube 1 "dis"))
           "forecast.grib" (forecast_cube 1 "dis")
           [InfoUsingVariable "dis"] (forecast_var 1)
           example_lat example_lon).
  - reflexivity.
  - reflexivity.
  - repeat constructor; simpl; intuition discriminate.
  - intros labels _ H. injection H as <-. reflexivity.
  - discriminate.
  - reflexivity.
  - reflexivity.
Defined.

(** The reduction at three forecast cubes: one member is dropped and the
    field is drawn; three members stay and the rank is three; two lead
    times labelled 24 both stay and the rank is three. *)
Example reduction_runs :
  reduced_sizes (forecast_var 1) = [("latitude", 2); ("longitude", 2)]%nat /\
  (exists fs,
      snd (grib_to_geojson None (fun _ => Ok (forecast_cube 1 "dis"))
             "forecast.grib") = Ok (collection fs)) /\
  snd (grib_to_geojson None (fun _ => Ok (forecast_cube 3 "dis"))
         "forecast.grib") = Raise (RuntimeError_shape [3; 2; 2]%nat) /\
  snd (grib_to_geojson None (fun _ => Ok repeated_cube) "forecast.grib")
    = Raise (RuntimeError_shape [2; 2; 2]%nat).
Proof.
  repeat split; try (vm_compute; reflexivity).
  eexists. vm_compute. reflexivity.
Qed.

(** Lead times that are time spans: no label is the number 24, and the
    first step is drawn although the first label is 24 hours and the
    second 48. *)
Example time_span_lead_times :
  exists data_24h,
    select_lead_time cfgrib_var = Ok data_24h /\
    sizes data_24h = [("latitude", 2); ("longitude", 2)]%nat /\
    forall idx, data data_24h idx = data cfgrib_var (0%nat :: idx).
Proof.
  eexists. split; [reflexivity|]. split; reflexivity.
Qed.

(** Latitudes and longitudes that are not coordinate arrays: data
    variables of these names are read as they are, and a dimension
    without coordinate array has the positions 0, 1, ... as its values. *)
Example coordinates_elsewhere :
  snd (grib_to_geojson None (fun _ => Ok variables_cube) "forecast.grib")
    = Ok (collection [example_feature]) /\
  ds_coord_values bare_cube "lat" = Ok [Finite 0; Finite 1] /\
  (exists f,
      snd (grib_to_geojson None (fun _ => Ok bare_cube) "forecast.grib")
        = Ok (collection [f]) /\
      coordinates (geometry f) =
        [[ [Finite 0; Finite 0]; [Finite 1; Finite 0]; [Finite 1; Finite 1];
           [Finite 0; Finite 1]; [Finite 0; Finite 0] ]]).
Proof.
  split; [vm_compute; reflexivity|]. split; [vm_compute; reflexivity|].
  eexists. split; vm_compute; reflexivity.
Qed.
